(** * dpwh-contracts-dashboard: the JSON combiner and the contract extractor

    A shallow embedding of [src/combine_json.py] and [src/extract_contracts.py]
    and the properties their specification states about them.

    Conventions of the embedding.
    - A Python [str] is a Rocq [string] whose characters are the code points
      0..255 (Latin-1).  In that range [str.strip] removes the code points
      9-13, 28-32, 133 and 160, [\d] is [0-9] and [str.lower] shifts [A-Z]
      and the accented capitals.  Code points above 255 are outside the model.
    - A [dict] is a [gmap] where only lookups matter ([parser.values], the
      attributes of a tag) and an insertion-ordered association list where the
      order of keys is observable (a contract record, [FIELD_ID_MAP]).
    - An exception is a value of [exn]; code that can raise returns a
      [result].  The messages of the exceptions that the source formats are
      kept; those that a library formats are not, except that an exception
      of the operating system carries the path it names.
    - Library code whose result the programs only pass on enters as Section
      variables: the tokenizer of [html.parser] (the events it dispatches and
      the exception it may end with), [json.load] on the text of a file (a
      value or an exception), [float.__repr__], the order in which a [set] is
      iterated and the interpreter's limit on the length of a numeral.
      [pathlib]'s pure paths and [json.dumps] are modelled, since claims
      depend on what they compute.
    - The operating system is an interface, [OS.t], over a type of worlds
      that is left open: resolving a path, testing and listing, reading,
      creating directories, writing and printing.  Every operation that can
      fail in Python returns a [result], and every operation that can change
      the world returns the world it leaves, also when it fails.  The
      theorems hold for every implementation of the interface; [Posix] is a
      small one, used in the examples. *)

From Stdlib Require Import Ascii String NArith ZArith List Lia.
From Stdlib Require Import DecimalString DecimalPos DecimalN.
From Stdlib Require Import Floats.SpecFloat.
From stdpp Require Import base option list sorting gmap strings.

Local Set Warnings "-register-all,-clear-no-such-hyp".
Local Open Scope N_scope.

(** ** Exceptions and the error monad *)

(** [ValueError] is the exception of that class itself; its subclasses
    [UnicodeDecodeError] and [json.JSONDecodeError] are values of their own,
    so that [except json.JSONDecodeError] can tell them apart. *)
Inductive exn : Type :=
  | KeyError (key : string)
  | ValueError
  | UnicodeDecodeError
  | JSONDecodeError
  | RecursionError
  | AssertionError
  | RuntimeError (msg : string)
  | FileNotFoundError (msg : string)
  | NotADirectoryError (msg : string)
  | IsADirectoryError (msg : string)
  | FileExistsError (msg : string)
  | OSError (msg : string).

Inductive result (A : Type) : Type :=
  | Ok (a : A)
  | Raise (e : exn).

Arguments Ok {A} a.
Arguments Raise {A} e.

(** The monad of [result], with stdpp's [x ← r; k] notation. *)
Global Instance result_ret : MRet result := λ A a, Ok a.
Global Instance result_bind : MBind result := λ A B k r,
  match r with
  | Ok a => k a
  | Raise e => Raise e
  end.
Global Instance result_fmap : FMap result := λ A B f r,
  match r with
  | Ok a => Ok (f a)
  | Raise e => Raise e
  end.

(** ** Python strings over Latin-1 *)

Module PyStr.

(** [bool(s)]: a string is truthy when it is not empty. *)
Definition truthy (s : string) : bool :=
  match s with
  | EmptyString => false
  | String _ _ => true
  end.

(** [str.isspace] on one code point below 256. *)
Definition is_space (c : ascii) : bool :=
  let n := N_of_ascii c in
  ((9 <=? n) && (n <=? 13)) || ((28 <=? n) && (n <=? 32))
  || (n =? 133) || (n =? 160).

(** [\d] on one code point below 256. *)
Definition is_digit (c : ascii) : bool :=
  let n := N_of_ascii c in (48 <=? n) && (n <=? 57).

Definition lower_char (c : ascii) : ascii :=
  let n := N_of_ascii c in
  if ((65 <=? n) && (n <=? 90))
     || ((192 <=? n) && (n <=? 222) && negb (n =? 215))
  then ascii_of_N (n + 32) else c.

(** [str.lower]. *)
Fixpoint lower (s : string) : string :=
  match s with
  | EmptyString => EmptyString
  | String c s' => String (lower_char c) (lower s')
  end.

(** [str.lstrip], [str.rstrip] and [str.strip] without argument. *)
Fixpoint lstrip (s : string) : string :=
  match s with
  | EmptyString => EmptyString
  | String c s' => if is_space c then lstrip s' else s
  end.

Fixpoint rstrip (s : string) : string :=
  match s with
  | EmptyString => EmptyString
  | String c s' =>
      match rstrip s' with
      | EmptyString => if is_space c then EmptyString else String c EmptyString
      | r => String c r
      end
  end.

Definition strip (s : string) : string := rstrip (lstrip s).

(** First and last character of a string. *)
Definition head (s : string) : option ascii :=
  match s with
  | EmptyString => None
  | String c _ => Some c
  end.

Fixpoint last (s : string) : option ascii :=
  match s with
  | EmptyString => None
  | String c EmptyString => Some c
  | String _ s' => last s'
  end.

(** A string carries no space artifact when it neither starts nor ends with
    a whitespace character. *)
Definition trimmed (s : string) : Prop :=
  (∀ c, head s = Some c → is_space c = false) ∧
  (∀ c, last s = Some c → is_space c = false).

(** [s.startswith(p)] and [s.endswith(p)]. *)
Fixpoint startswith (p s : string) : bool :=
  match p, s with
  | EmptyString, _ => true
  | String a p', String b s' => if decide (a = b) then startswith p' s' else false
  | String _ _, EmptyString => false
  end.

Fixpoint endswith (p s : string) : bool :=
  match s with
  | EmptyString => if decide (p = EmptyString) then true else false
  | String _ s' => if decide (p = s) then true else endswith p s'
  end.

(** [s.removeprefix(p)] when [s] starts with [p], else [None]. *)
Fixpoint strip_prefix (p s : string) : option string :=
  match p, s with
  | EmptyString, _ => Some s
  | String a p', String b s' => if decide (a = b) then strip_prefix p' s' else None
  | String _ _, EmptyString => None
  end.

(** [sep in s] for a one-character [sep]. *)
Fixpoint contains (sep : ascii) (s : string) : bool :=
  match s with
  | EmptyString => false
  | String c s' => if decide (c = sep) then true else contains sep s'
  end.

(** [s.split(sep)] for a one-character [sep]: never the empty list. *)
Fixpoint split (sep : ascii) (s : string) : list string :=
  match s with
  | EmptyString => [EmptyString]
  | String c s' =>
      if decide (c = sep) then EmptyString :: split sep s'
      else match split sep s' with
           | h :: t => String c h :: t
           | [] => [String c EmptyString]
           end
  end.

(** [sep.join(l)]. *)
Fixpoint join (sep : string) (l : list string) : string :=
  match l with
  | [] => EmptyString
  | [x] => x
  | x :: l' => x +:+ sep +:+ join sep l'
  end.

(** [s.lstrip(c)] for a one-character [c]. *)
Fixpoint lstrip_char (c : ascii) (s : string) : string :=
  match s with
  | EmptyString => EmptyString
  | String a s' => if decide (a = c) then lstrip_char c s' else s
  end.

(** [s[:n]] for [0 <= n]. *)
Fixpoint take (n : nat) (s : string) : string :=
  match n, s with
  | S n', String c s' => String c (take n' s')
  | _, _ => EmptyString
  end.

(** [s[:-k]] for [0 < k]: all but the last [k] characters. *)
Definition drop_last (k : nat) (s : string) : string :=
  take (String.length s - k) s.

(** [all(p(c) for c in s)]. *)
Fixpoint all (p : ascii → bool) (s : string) : bool :=
  match s with
  | EmptyString => true
  | String c s' => p c && all p s'
  end.

(** [c * n]. *)
Fixpoint repeat (c : string) (n : nat) : string :=
  match n with
  | O => EmptyString
  | S n' => c +:+ repeat c n'
  end.

(** The line feed and the double quote, which a literal cannot hold. *)
Definition LF : string := String "010"%char EmptyString.
Definition DQUOTE : string := String "034"%char EmptyString.

(** [str(n)] for a natural number, and the number that a non-empty string
    of decimal digits denotes.  The interpreter's limit on the length of
    numerals applies to [str] as it does to [int] below; the programs format
    the lengths of lists and the indices that [int] returned, and the text of
    such an index is not longer than the numeral that passed the limit. *)
Definition of_nat_N (n : N) : string := NilEmpty.string_of_uint (N.to_uint n).
Definition to_N (s : string) : option N :=
  if truthy s then N.of_uint <$> NilEmpty.uint_of_string s else None.

(** [int(s)] for a string [s] of decimal digits, the only strings the
    programs convert.  The interpreter refuses a numeral that is longer than
    640 characters and longer than [max_str_digits], the value of
    [sys.get_int_max_str_digits()]: 4300 unless configured, and 0 for no
    limit.  Leading zeros count.  The empty string is refused as well. *)
Definition exceeds_max_str_digits (max_str_digits : nat) (s : string) : bool :=
  bool_decide (640 < String.length s ∧ 0 < max_str_digits
               ∧ max_str_digits < String.length s)%nat.

Definition int (max_str_digits : nat) (s : string) : result N :=
  if exceeds_max_str_digits max_str_digits s then Raise ValueError
  else match to_N s with
       | Some n => Ok n
       | None => Raise ValueError
       end.

(** [str(z)] for an integer. *)
Definition of_Z (z : Z) : string := NilEmpty.string_of_int (Z.to_int z).

End PyStr.

(** ** [pathlib]: pure POSIX paths

    A path is its root ([""], ["/"] or ["//"]) and the list of its
    components; [parse] drops empty components and ["."], as the constructor
    of [PurePosixPath] does.  [suffixes] is the definition of Python 3.13 and
    before (a name ending in a dot has no suffix). *)

Module PurePath.

Record t : Type := mk {
  root : string;
  tail : list string
}.

Global Instance t_eq_dec : EqDecision t.
Proof. solve_decision. Defined.

Definition parse_root (s : string) : string :=
  if PyStr.startswith "///" s then "/"
  else if PyStr.startswith "//" s then "//"
  else if PyStr.startswith "/" s then "/"
  else "".

(** [Path(s)] *)
Definition parse (s : string) : t :=
  {| root := parse_root s;
     tail := filter (λ part, part ≠ "" ∧ part ≠ ".") (PyStr.split "/" s) |}.

(** [str(p)] *)
Definition str (p : t) : string :=
  match root p, tail p with
  | EmptyString, [] => "."
  | r, parts => r +:+ PyStr.join "/" parts
  end.

(** [p.name]: the final component, empty when there is none. *)
Definition name (p : t) : string := List.last (tail p) "".

(** [p.suffixes] *)
Definition suffixes (p : t) : list string :=
  let name := name p in
  if PyStr.endswith "." name then []
  else
    let name := PyStr.lstrip_char "." name in
    (λ suffix, "." +:+ suffix) <$> drop 1 (PyStr.split "." name).

(** [p.with_name(name)]: [ValueError] when [p] has no name or [name] is not
    a single component. *)
Definition with_name (p : t) (new_name : string) : result t :=
  if negb (PyStr.truthy (name p)) then Raise ValueError
  else if negb (PyStr.truthy new_name) || PyStr.contains "/" new_name
          || bool_decide (new_name = ".")
  then Raise ValueError
  else Ok {| root := root p; tail := removelast (tail p) ++ [new_name] |}.

(** [p.parent]: the path without its final component; a path without
    components is its own parent. *)
Definition parent (p : t) : t :=
  {| root := root p; tail := removelast (tail p) |}.

(** [p.is_absolute()] *)
Definition is_absolute (p : t) : bool := PyStr.truthy (root p).

(** [p / q] *)
Definition joinpath (p q : t) : t :=
  if is_absolute q then q
  else {| root := root p; tail := tail p ++ tail q |}.

(** The child [p / name] that [glob] yields for an entry [name] of the
    directory [p]. *)
Definition make_child (p : t) (entry : string) : t :=
  {| root := root p; tail := tail p ++ [entry] |}.

(** [p.parts]: the root, when there is one, and then the components.  Two
    paths compare as these lists of strings do, lexicographically. *)
Definition parts (p : t) : list string :=
  if is_absolute p then root p :: tail p else tail p.

Fixpoint parts_le (l1 l2 : list string) : bool :=
  match l1, l2 with
  | [], _ => true
  | _ :: _, [] => false
  | a :: l1', b :: l2' =>
      if decide (a = b) then parts_le l1' l2' else bool_decide (a ≤ b)%string
  end.

(** [p <= q] *)
Definition le (p q : t) : Prop := parts_le (parts p) (parts q).

Global Instance le_dec : RelDecision le.
Proof. intros p q. unfold le. apply _. Defined.

End PurePath.

(** ** [json]: the values [json.load] returns and their serialization

    [dumps] is [json.dumps(o, ensure_ascii=False, indent=n)] for an integer
    [n]: with an indent the encoder puts every item on a line of its own,
    separates items by a comma and a key from its value by a colon and a
    space.  [float.__repr__] is a parameter. *)

Module Json.

Inductive value : Type :=
  | PyNone
  | PyBool (b : bool)
  | PyInt (z : Z)
  | PyFloat (f : spec_float)
  | PyStr (s : string)
  | PyList (items : list value)
  | PyDict (items : list (string * value)).

(** [isinstance(o, list)] *)
Definition is_list (o : value) : bool :=
  match o with
  | PyList _ => true
  | _ => false
  end.

Definition hex_digit (n : N) : ascii :=
  if n <? 10 then ascii_of_N (48 + n) else ascii_of_N (87 + n).

(** The replacement of one character by [ESCAPE_DCT]. *)
Definition escape_char (c : ascii) : string :=
  let n := N_of_ascii c in
  if n =? 92 then "\\"
  else if n =? 34 then "\" +:+ PyStr.DQUOTE
  else if n =? 8 then "\b"
  else if n =? 12 then "\f"
  else if n =? 10 then "\n"
  else if n =? 13 then "\r"
  else if n =? 9 then "\t"
  else if n <? 32
  then "\u00" +:+ String (hex_digit (n / 16)) (String (hex_digit (n mod 16)) "")
  else String c "".

Fixpoint escape (s : string) : string :=
  match s with
  | EmptyString => EmptyString
  | String c s' => escape_char c +:+ escape s'
  end.

(** [encode_basestring] *)
Definition encode_basestring (s : string) : string :=
  PyStr.DQUOTE +:+ escape s +:+ PyStr.DQUOTE.

Section Encoder.

Variable float_repr : spec_float → string.

Definition floatstr (f : spec_float) : string :=
  match f with
  | S754_nan => "NaN"
  | S754_infinity false => "Infinity"
  | S754_infinity true => "-Infinity"
  | _ => float_repr f
  end.

(** [_iterencode], joined: [indent] is the indentation of one level. *)
Fixpoint iterencode (indent : string) (level : nat) (o : value) {struct o}
  : string :=
  match o with
  | PyNone => "null"
  | PyBool true => "true"
  | PyBool false => "false"
  | PyInt z => PyStr.of_Z z
  | PyFloat f => floatstr f
  | PyStr s => encode_basestring s
  | PyList [] => "[]"
  | PyList lst =>
      let newline_indent := PyStr.LF +:+ PyStr.repeat indent (S level) in
      "[" +:+ newline_indent
      +:+ PyStr.join ("," +:+ newline_indent)
            (List.map (iterencode indent (S level)) lst)
      +:+ PyStr.LF +:+ PyStr.repeat indent level +:+ "]"
  | PyDict [] => "{}"
  | PyDict dct =>
      let newline_indent := PyStr.LF +:+ PyStr.repeat indent (S level) in
      "{" +:+ newline_indent
      +:+ PyStr.join ("," +:+ newline_indent)
            (List.map (λ item, encode_basestring (fst item) +:+ ": "
                               +:+ iterencode indent (S level) (snd item)) dct)
      +:+ PyStr.LF +:+ PyStr.repeat indent level +:+ "}"
  end.

(** [json.dumps(o, ensure_ascii=False, indent=indent)]: a negative indent
    is the empty indentation, since [' ' * indent] is then empty. *)
Definition dumps (indent : Z) (o : value) : string :=
  iterencode (PyStr.repeat " " (Z.to_nat indent)) 0 o.

End Encoder.

End Json.

(** ** Dictionaries *)

(** [bool(v)] for a value that is a string or [None]. *)
Definition truthy_opt (v : option string) : bool :=
  match v with
  | Some s => PyStr.truthy s
  | None => false
  end.

(** [dict(attrs)]: a later pair with the same name replaces an earlier one. *)
Definition dict {V : Type} (pairs : list (string * V)) : gmap string V :=
  foldl (λ d kv, <[kv.1 := kv.2]> d) ∅ pairs.

(** [d.setdefault(k, v)], for its effect on [d]. *)
Definition setdefault {V : Type} (k : string) (v : V) (d : gmap string V)
  : gmap string V :=
  match d !! k with
  | Some _ => d
  | None => <[k := v]> d
  end.

(** A dictionary whose key order is observed: [d[k] = v] replaces the value
    of a key in place and appends a new key; [d.get(k)] . *)
Fixpoint odict_set {V : Type} (k : string) (v : V) (d : list (string * V))
  : list (string * V) :=
  match d with
  | [] => [(k, v)]
  | (k', v') :: d' =>
      if decide (k = k') then (k, v) :: d' else (k', v') :: odict_set k v d'
  end.

Fixpoint odict_get {V : Type} (k : string) (d : list (string * V)) : option V :=
  match d with
  | [] => None
  | (k', v') :: d' => if decide (k = k') then Some v' else odict_get k d'
  end.

(** ** The operating system

    What the two programs ask of the operating system, over a type [W] of
    worlds.  [scandir] gives the names of the entries of a directory in the
    order the system lists them, and [None] for a path that is no directory.
    [read_text] is [open(p, encoding="utf-8")] followed by [read]: it fails
    when the file cannot be opened and with [UnicodeDecodeError] when its
    bytes are not UTF-8.  [mkdir] is [p.mkdir(parents=True, exist_ok=True)].
    [write_text] opens [p] for writing, writes the text and closes the file;
    when it fails the world it returns may hold an empty or a partial file.
    [print] is [print(text)].  No law relates the operations: a file that was
    written need not read back the same (a reader translates line ends). *)

Module OS.

Record t (W : Type) : Type := mk {
  resolve : W → PurePath.t → PurePath.t;
  is_file : W → PurePath.t → bool;
  scandir : W → PurePath.t → option (list string);
  read_text : W → PurePath.t → result string;
  mkdir : W → PurePath.t → W * result unit;
  write_text : W → PurePath.t → string → W * result unit;
  print : W → string → W * result unit
}.

Arguments mk {W}.
Arguments resolve {W}.
Arguments is_file {W}.
Arguments scandir {W}.
Arguments read_text {W}.
Arguments mkdir {W}.
Arguments write_text {W}.
Arguments print {W}.

End OS.

(** ** [extract_contracts.py] *)

Module extract_contracts.

(** Lines 13-24. *)
Definition FIELD_ID_MAP : list (string * string) :=
  [ ("contract_id", "Repeater1_lblCustomerId_{idx}");
    ("contract_description", "Repeater1_lblContactName_{idx}");
    ("contractor", "Repeater1_lblCountry_{idx}");
    ("implementing_office", "Repeater1_Label5_{idx}");
    ("source_of_funds", "Repeater1_Label6_{idx}");
    ("contract_cost_php", "Repeater1_Label2_{idx}");
    ("contract_effectivity_date", "Repeater1_Label3_{idx}");
    ("contract_expiry_date", "Repeater1_Label4_{idx}");
    ("status", "Repeater1_Label7_{idx}");
    ("percent_accomplishment", "Repeater1_Label1_{idx}") ].

(** [template.format(idx=idx)] for a template whose only replacement field
    is [{idx}]: every occurrence is replaced by the decimal text of [idx].
    [skip] counts the characters of a field still to be passed over. *)
Fixpoint format_go (idx_text : string) (skip : nat) (template : string)
  : string :=
  match template with
  | EmptyString => EmptyString
  | String c rest =>
      match skip with
      | S skip' => format_go idx_text skip' rest
      | O =>
          if PyStr.startswith "{idx}" template
          then idx_text +:+ format_go idx_text 4 rest
          else String c (format_go idx_text 0 rest)
      end
  end.

Definition format (template : string) (idx : N) : string :=
  format_go (PyStr.of_nat_N idx) 0 template.

(** The longest prefix of [s] without underscore, and the rest of [s]. *)
Fixpoint span_not_underscore (s : string) : string * string :=
  match s with
  | EmptyString => (EmptyString, EmptyString)
  | String c s' =>
      if decide (c = "_"%char) then (EmptyString, s)
      else let '(mid, rest) := span_not_underscore s' in (String c mid, rest)
  end.

(** Line 26 and its use in line 68:
    [INDEX_PATTERN.match(element_id)], the text of group 1 when the pattern
    [Repeater1_[^_]+_(\d+)$] matches from the start of [element_id].
    [[^_]+] must stop at the first underscore after the prefix, the digits
    run to the end, and [$] also matches before one final line feed. *)
Definition INDEX_PATTERN_match (element_id : string) : option string :=
  after_prefix ← PyStr.strip_prefix "Repeater1_" element_id;
  let '(middle, rest) := span_not_underscore after_prefix in
  if negb (PyStr.truthy middle) then None
  else
    after_underscore ← PyStr.strip_prefix "_" rest;
    let digits :=
      if PyStr.endswith PyStr.LF after_underscore
      then PyStr.drop_last 1 after_underscore
      else after_underscore in
    if PyStr.truthy digits && PyStr.all PyStr.is_digit digits
    then Some digits else None.

(** The events [HTMLParser.feed] dispatches.  An attribute without a value
    ([<span id>]) carries [None]. *)
Inductive event : Type :=
  | StartTag (tag : string) (attrs : list (string * option string))
  | Data (data : string)
  | EndTag (tag : string).

Module ContractHTMLParser.

Record t : Type := mk {
  _current_id : option string;
  values : gmap string string
}.

(** [__init__], lines 32-35. *)
Definition init : t := {| _current_id := None; values := ∅ |}.

(** Lines 37-44. *)
Definition handle_starttag (self : t) (tag : string)
    (attrs : list (string * option string)) : t :=
  if decide (PyStr.lower tag ≠ "span") then self
  else
    let attr_dict := dict attrs in
    let element_id := mjoin (attr_dict !! "id") in
    match element_id with
    | Some element_id =>
        if PyStr.truthy element_id
        then {| _current_id := Some element_id;
                values := setdefault element_id "" (values self) |}
        else self
    | None => self
    end.

(** Lines 46-55.  [self.values[self._current_id]] raises [KeyError] on a
    missing key. *)
Definition handle_data (self : t) (data : string) : result t :=
  match _current_id self with
  | None => Ok self
  | Some cid =>
      if negb (PyStr.truthy cid) then Ok self
      else
        let text := PyStr.strip data in
        if negb (PyStr.truthy text) then Ok self
        else
          match values self !! cid with
          | None => Raise (KeyError cid)
          | Some cur =>
              if PyStr.truthy cur
              then Ok {| _current_id := _current_id self;
                         values := <[cid := cur +:+ " " +:+ text]> (values self) |}
              else Ok {| _current_id := _current_id self;
                         values := <[cid := text]> (values self) |}
          end
  end.

(** Lines 57-59. *)
Definition handle_endtag (self : t) (tag : string) : t :=
  if decide (PyStr.lower tag = "span")
  then {| _current_id := None; values := values self |}
  else self.

Definition handle (self : t) (ev : event) : result t :=
  match ev with
  | StartTag tag attrs => Ok (handle_starttag self tag attrs)
  | Data data => handle_data self data
  | EndTag tag => Ok (handle_endtag self tag)
  end.

(** [feed], over the events of the document in order. *)
Fixpoint feed (self : t) (events : list event) : result t :=
  match events with
  | [] => Ok self
  | ev :: rest => self' ← handle self ev; feed self' rest
  end.

End ContractHTMLParser.


(** A contract record: a [dict] from field name to text or [None], in
    insertion order. *)
Abbreviation contract := (list (string * option string)).

(** Lines 73-77: the record of one index, filled by the loop over
    [FIELD_ID_MAP.items()]. *)
Definition build_record (raw_values : gmap string string) (idx : N) : contract :=
  foldl (λ (record : contract) item,
           let '(field, id_template) := item in
           let element_id := format id_template idx in
           let value := raw_values !! element_id in
           odict_set field value record)
        [] FIELD_ID_MAP.

(** Line 68: the set comprehension over the keys of [raw_values].  [int] is
    applied to group 1 of every key that matches and its [ValueError] ends
    the comprehension.  The keys are visited in the order of [elements]; the
    order of the dictionary is not observable here, since the outcome is the
    same set, or the same exception, in every order. *)
Definition index_set (max_str_digits : nat) (raw_values : gmap string string)
  : result (gset N) :=
  foldl (λ acc element_id,
           indices ← acc;
           match INDEX_PATTERN_match element_id with
           | Some digits =>
               idx ← PyStr.int max_str_digits digits;
               Ok ({[ idx ]} ∪ indices)
           | None => Ok indices
           end)
        (Ok ∅) (elements (dom raw_values)).

(** Line 67: [sorted] of an enumeration of a set of integers. *)
Definition sorted (enumeration : list N) : list N :=
  merge_sort N.le enumeration.

(** Lines 71-80: the loop over [indices]. *)
Definition assemble (raw_values : gmap string string) (indices : list N)
  : list contract :=
  foldl (λ contracts idx,
           let record := build_record raw_values idx in
           if truthy_opt (mjoin (odict_get "contract_id" record))
           then contracts ++ [record] else contracts)
        [] indices.

(** [parse_contracts] after [parser.feed], lines 67-82: from the accumulated
    mapping to the records.  [enumerate] is the order in which the
    interpreter iterates over a set. *)
Definition contracts_of (max_str_digits : nat) (enumerate : gset N → list N)
    (raw_values : gmap string string) : result (list contract) :=
  index_set ← index_set max_str_digits raw_values;
  let indices := sorted (enumerate index_set) in
  Ok (assemble raw_values indices).

(** The records as the value [json.dumps] receives. *)
Definition to_json (contracts : list contract) : Json.value :=
  Json.PyList
    ((λ record : contract,
        Json.PyDict
          ((λ item : string * option string,
              (item.1, match item.2 with
                       | Some text => Json.PyStr text
                       | None => Json.PyNone
                       end)) <$> record)) <$> contracts).

(** The namespace [argparse] returns. *)
Record args : Type := mk_args {
  html_path : string;
  output : option string;
  indent : Z
}.

Section Extractor.

(** [sys.get_int_max_str_digits()] *)
Variable max_str_digits : nat.
(** The tokenizer of [html.parser]: the events [feed] dispatches for a
    document, in order, and the exception that [feed] raises after them, if
    any (the library raises [AssertionError] on some malformed markup). *)
Variable tokenize : string → list event * option exn.
(** The iteration order of a set of integers. *)
Variable enumerate : gset N → list N.
Variable float_repr : spec_float → string.
Context {W : Type}.
Variable os : OS.t W.

(** Lines 62-82. *)
Definition parse_contracts (html_source : string) : result (list contract) :=
  let '(events, failure) := tokenize html_source in
  parser ← ContractHTMLParser.feed ContractHTMLParser.init events;
  match failure with
  | Some e => Raise e
  | None =>
      let raw_values := ContractHTMLParser.values parser in
      contracts_of max_str_digits enumerate raw_values
  end.

(** Lines 118-120: the name of the output file. *)
Definition counted_name (output_path : PurePath.t) (contract_count : nat)
  : string :=
  let suffix := PyStr.join "" (PurePath.suffixes output_path) in
  let base_name :=
    if PyStr.truthy suffix
    then PyStr.drop_last (String.length suffix) (PurePath.name output_path)
    else PurePath.name output_path in
  base_name +:+ "_" +:+ PyStr.of_nat_N (N.of_nat contract_count) +:+ suffix.

(** [json.dumps(contracts, ensure_ascii=False, indent=args.indent)] *)
Definition json_payload (indent : Z) (contracts : list contract) : string :=
  Json.dumps float_repr indent (to_json contracts).

(** [main], lines 106-124: the world after the run and how the run ended. *)
Definition main (a : args) (w : W) : W * result unit :=
  let html_file := PurePath.parse (html_path a) in
  if negb (OS.is_file os w html_file)
  then (w, Raise (FileNotFoundError
                    ("HTML file not found: " +:+ PurePath.str html_file)))
  else
    match OS.read_text os w html_file with
    | Raise e => (w, Raise e)
    | Ok html_source =>
        match parse_contracts html_source with
        | Raise e => (w, Raise e)
        | Ok contracts =>
            let contract_count := length contracts in
            let json_payload := json_payload (indent a) contracts in
            if truthy_opt (output a)
            then
              let output_path := PurePath.parse (default "" (output a)) in
              let new_name := counted_name output_path contract_count in
              match PurePath.with_name output_path new_name with
              | Raise e => (w, Raise e)
              | Ok final_path =>
                  OS.write_text os w final_path (json_payload +:+ PyStr.LF)
              end
            else OS.print os w json_payload
        end
    end.

End Extractor.

End extract_contracts.

(** ** [combine_json.py] *)

Module combine_json.

(** The namespace [argparse] returns. *)
Record args : Type := mk_args {
  directory : PurePath.t;
  output : PurePath.t
}.

Section Combiner.

Variable resolve : PurePath.t → PurePath.t.
(** The names of the entries of a directory, in the order the operating
    system lists them, or [None] for a path that is no directory. *)
Variable scandir : PurePath.t → option (list string).

(** [p.is_dir()] *)
Definition is_dir (p : PurePath.t) : bool := bool_decide (is_Some (scandir p)).

(** [directory.glob("*.json")]: the children whose name ends in [.json],
    in the order of the listing. *)
Definition glob_json (directory : PurePath.t) : list PurePath.t :=
  PurePath.make_child directory
    <$> filter (λ entry, PyStr.endswith ".json" entry = true)
          (default [] (scandir directory)).

(** Lines 43-45. *)
Definition collect_json_files (directory output_path : PurePath.t)
  : list PurePath.t :=
  let json_files := merge_sort PurePath.le (glob_json directory) in
  filter (λ path, resolve path ≠ resolve output_path) json_files.

End Combiner.

(** Line 83: the text [main] prints. *)
Definition summary (n_files : nat) (output_path : PurePath.t) (n_items : nat)
  : string :=
  "Combined " +:+ PyStr.of_nat_N (N.of_nat n_files) +:+ " file(s) into "
  +:+ PurePath.str output_path +:+ " with "
  +:+ PyStr.of_nat_N (N.of_nat n_items) +:+ " item(s).".

Section Run.

(** [json.load] on the text read from a file: the value, or the exception
    of the decoder ([JSONDecodeError] on a syntax error, [RecursionError] on
    nesting that is too deep, [ValueError] on an integer literal beyond the
    limit on numerals). *)
Variable json_load : string → result Json.value.
Variable float_repr : spec_float → string.
Context {W : Type}.
Variable os : OS.t W.

(** Lines 48-58.  The [try] covers the opening, the reading and the
    decoding, and catches [JSONDecodeError] only. *)
Definition load_json_as_list (w : W) (path : PurePath.t)
  : result (list Json.value) :=
  match text ← OS.read_text os w path; json_load text with
  | Raise JSONDecodeError =>
      Raise (RuntimeError ("Failed to parse " +:+ PurePath.str path))
  | Raise e => Raise e
  | Ok data =>
      match data with
      | Json.PyList items => Ok items
      | _ => Ok [data]
      end
  end.

(** Lines 61-64.  Opening the file, [json.dump] into it and closing it are
    one [OS.write_text] of the serialized entries: a failure while the text
    is produced or encoded leaves what was written until then, as a failed
    [OS.write_text] may. *)
Definition write_combined_json (w : W) (output_path : PurePath.t)
    (entries : list Json.value) : W * result unit :=
  match OS.mkdir os w (PurePath.parent output_path) with
  | (w, Raise e) => (w, Raise e)
  | (w, Ok _) =>
      OS.write_text os w output_path
        (Json.dumps float_repr 2 (Json.PyList entries))
  end.

(** Lines 77-79, the loop of [main]:
    [combined.extend(load_json_as_list(json_file))]. *)
Fixpoint extend_all (w : W) (combined : list Json.value)
    (json_files : list PurePath.t) : result (list Json.value) :=
  match json_files with
  | [] => Ok combined
  | json_file :: rest =>
      items ← load_json_as_list w json_file;
      extend_all w (combined ++ items) rest
  end.

(** [main], lines 67-83: the world after the run and how the run ended.
    The directory is listed and the candidates are loaded in the world the
    run starts in; nothing is changed before [write_combined_json]. *)
Definition main (a : args) (w : W) : W * result unit :=
  let directory := OS.resolve os w (directory a) in
  let output_path :=
    if PurePath.is_absolute (output a) then output a
    else PurePath.joinpath directory (output a) in
  if negb (is_dir (OS.scandir os w) directory)
  then (w, Raise (NotADirectoryError
                    ("Directory does not exist: " +:+ PurePath.str directory)))
  else
    let json_files :=
      collect_json_files (OS.resolve os w) (OS.scandir os w)
        directory output_path in
    match extend_all w [] json_files with
    | Raise e => (w, Raise e)
    | Ok combined =>
        match write_combined_json w output_path combined with
        | (w, Raise e) => (w, Raise e)
        | (w, Ok _) =>
            OS.print os w
              (summary (length json_files) output_path (length combined))
        end
    end.

End Run.


End combine_json.

(** ** A small file system

    An implementation of [OS.t] for the examples: directories and regular
    files without symbolic links or permissions, a working directory and the
    text printed so far.  The nodes are keyed by the text of their resolved
    path; the root directory always exists. *)

Module Posix.

(** A regular file holds text, or bytes that are not UTF-8. *)
Inductive node : Type :=
  | Dir
  | File (content : string)
  | Binary.

Record world : Type := mk_world {
  nodes : gmap string node;
  cwd : PurePath.t;
  stdout : string
}.

(** The components of a path after every [..] has cancelled the component
    before it; [seen] holds the components kept so far, the last one first. *)
Fixpoint collapse (seen tail : list string) : list string :=
  match tail with
  | [] => rev seen
  | part :: tail' =>
      if decide (part = "..") then collapse (List.tl seen) tail'
      else collapse (part :: seen) tail'
  end.

(** [p.resolve()] *)
Definition resolve (w : world) (p : PurePath.t) : PurePath.t :=
  let q := if PurePath.is_absolute p then p else PurePath.joinpath (cwd w) p in
  {| PurePath.root := PurePath.root q;
     PurePath.tail := collapse [] (PurePath.tail q) |}.

Definition node_at (nodes : gmap string node) (q : PurePath.t) : option node :=
  match PurePath.tail q with
  | [] => Some Dir
  | _ => nodes !! PurePath.str q
  end.

(** The directories above [q], from the root down to its parent. *)
Definition ancestors (q : PurePath.t) : list PurePath.t :=
  (λ n, {| PurePath.root := PurePath.root q;
           PurePath.tail := take n (PurePath.tail q) |})
    <$> seq 0 (length (PurePath.tail q)).

(** The error of the first of [dirs] that is no directory. *)
Fixpoint walk (nodes : gmap string node) (dirs : list PurePath.t)
    (filename : string) : option exn :=
  match dirs with
  | [] => None
  | d :: rest =>
      match node_at nodes d with
      | Some Dir => walk nodes rest filename
      | Some _ => Some (NotADirectoryError filename)
      | None => Some (FileNotFoundError filename)
      end
  end.

(** [p.is_file()] *)
Definition is_file (w : world) (p : PurePath.t) : bool :=
  match node_at (nodes w) (resolve w p) with
  | Some (File _) | Some Binary => true
  | _ => false
  end.

(** The entries of a directory, in the order of the keys. *)
Definition scandir (w : world) (p : PurePath.t) : option (list string) :=
  let q := resolve w p in
  match node_at (nodes w) q with
  | Some Dir =>
      Some (omap (λ key,
                    let child := PurePath.parse key in
                    if decide (PurePath.tail child ≠ []
                               ∧ PurePath.parent child = q)
                    then Some (PurePath.name child) else None)
                 (elements (dom (nodes w))))
  | _ => None
  end.

(** What a reader in text mode makes of the line ends. *)
Fixpoint universal_newlines (s : string) : string :=
  match s with
  | EmptyString => EmptyString
  | String c s' =>
      if Ascii.eqb c "013"
      then String "010"
             match s' with
             | String c' s'' =>
                 if Ascii.eqb c' "010" then universal_newlines s''
                 else universal_newlines s'
             | EmptyString => EmptyString
             end
      else String c (universal_newlines s')
  end.

Definition read_text (w : world) (p : PurePath.t) : result string :=
  let q := resolve w p in
  match walk (nodes w) (ancestors q) (PurePath.str p) with
  | Some e => Raise e
  | None =>
      match node_at (nodes w) q with
      | Some (File content) => Ok (universal_newlines content)
      | Some Binary => Raise UnicodeDecodeError
      | Some Dir => Raise (IsADirectoryError (PurePath.str p))
      | None => Raise (FileNotFoundError (PurePath.str p))
      end
  end.

(** [os.mkdir] for each of [dirs] that does not exist, from the top. *)
Fixpoint mkdir_go (nodes : gmap string node) (dirs : list PurePath.t)
    (filename : string) : gmap string node * result unit :=
  match dirs with
  | [] => (nodes, Ok ())
  | d :: rest =>
      match node_at nodes d with
      | Some Dir => mkdir_go nodes rest filename
      | Some _ =>
          (nodes, Raise (match rest with
                         | [] => FileExistsError filename
                         | _ => NotADirectoryError filename
                         end))
      | None => mkdir_go (<[PurePath.str d := Dir]> nodes) rest filename
      end
  end.

Definition mkdir (w : world) (p : PurePath.t) : world * result unit :=
  let q := resolve w p in
  let '(nodes', r) := mkdir_go (nodes w) (ancestors q ++ [q]) (PurePath.str p) in
  ({| nodes := nodes'; cwd := cwd w; stdout := stdout w |}, r).

Definition write_text (w : world) (p : PurePath.t) (text : string)
  : world * result unit :=
  let q := resolve w p in
  match walk (nodes w) (ancestors q) (PurePath.str p) with
  | Some e => (w, Raise e)
  | None =>
      match node_at (nodes w) q with
      | Some Dir => (w, Raise (IsADirectoryError (PurePath.str p)))
      | _ =>
          ({| nodes := <[PurePath.str q := File text]> (nodes w);
              cwd := cwd w; stdout := stdout w |}, Ok ())
      end
  end.

Definition print (w : world) (text : string) : world * result unit :=
  ({| nodes := nodes w; cwd := cwd w;
      stdout := stdout w +:+ text +:+ PyStr.LF |}, Ok ()).

Definition os : OS.t world :=
  OS.mk resolve is_file scandir read_text mkdir write_text print.

End Posix.

(** ** Notions used in the statements *)

Module Scanner.
Import extract_contracts.

(** [attr_dict.get("id")] *)
Definition id_attr (attrs : list (string * option string)) : option string :=
  mjoin (dict attrs !! "id").

(** An event that is no end tag of a span and no start tag of a span with a
    non-empty id. *)
Definition transparent (ev : event) : Prop :=
  match ev with
  | StartTag tag attrs =>
      PyStr.lower tag ≠ "span" ∨ truthy_opt (id_attr attrs) = false
  | Data _ => True
  | EndTag tag => PyStr.lower tag ≠ "span"
  end.

(** The text nodes among a list of events. *)
Definition text_nodes (events : list event) : list string :=
  omap (λ ev, match ev with Data data => Some data | _ => None end) events.

(** What the scanner maintains: the current id is a non-empty key of the
    accumulated mapping, and no accumulated text starts or ends with
    whitespace. *)
Definition consistent (self : ContractHTMLParser.t) : Prop :=
  (∀ cid, ContractHTMLParser._current_id self = Some cid →
          PyStr.truthy cid = true ∧
          is_Some (ContractHTMLParser.values self !! cid)) ∧
  (∀ k v, ContractHTMLParser.values self !! k = Some v → PyStr.trimmed v).

(** The accumulated text after the text nodes [texts] were appended to
    [cur]: the non-empty ones among [cur] and the stripped nodes, joined by
    one space. *)
Definition joined (cur : string) (texts : list string) : string :=
  PyStr.join " "
    (filter (λ s, PyStr.truthy s = true) (cur :: (PyStr.strip <$> texts))).

End Scanner.

Module Assembler.
Import extract_contracts.

(** The names of the fields of a record, in order. *)
Definition field_names : list string := FIELD_ID_MAP.*1.

(** The row number that group 1 of a matching key denotes; [int] returns
    it unless it refuses the numeral for its length. *)
Definition row_index (element_id : string) : option N :=
  digits ← INDEX_PATTERN_match element_id; PyStr.to_N digits.

(** A key whose row numeral, if it has one, is accepted by [int]. *)
Definition accepted (max_str_digits : nat) (element_id : string) : Prop :=
  ∀ digits, INDEX_PATTERN_match element_id = Some digits →
            PyStr.exceeds_max_str_digits max_str_digits digits = false.

(** No key of the mapping holds a row numeral that [int] refuses. *)
Definition within_limit (max_str_digits : nat)
    (raw_values : gmap string string) : Prop :=
  ∀ element_id digits,
    is_Some (raw_values !! element_id) →
    INDEX_PATTERN_match element_id = Some digits →
    PyStr.exceeds_max_str_digits max_str_digits digits = false.

(** The key of the accumulated mapping that holds the contract id of row
    [idx]. *)
Definition contract_id_key (idx : N) : string :=
  "Repeater1_lblCustomerId_" +:+ PyStr.of_nat_N idx.

(** The markup of the example: a span with text [C-1] for row 0 and an empty
    span for row 1, and the events the tokenizer dispatches for it. *)
Definition two_rows_html : string :=
  "<span id='Repeater1_lblCustomerId_0'>C-1</span><span id='Repeater1_lblCustomerId_1'></span>".

Definition two_rows_events : list event :=
  [ StartTag "span" [("id", Some "Repeater1_lblCustomerId_0")];
    Data "C-1";
    EndTag "span";
    StartTag "span" [("id", Some "Repeater1_lblCustomerId_1")];
    EndTag "span" ].

(** A tokenizer that knows this markup. *)
Definition two_rows_tokenize (html_source : string)
  : list event * option exn :=
  (two_rows_events, None).

(** A mapping with the contract id of row 0 and a key whose row numeral has
    4301 digits. *)
Definition long_numeral_key : string :=
  "Repeater1_lblCustomerId_" +:+ PyStr.repeat "1" 4301.

Definition long_numeral_values : gmap string string :=
  {[ contract_id_key 0 := "C-1"; long_numeral_key := "C-2" ]}.

Definition row_C1 : list (string * option string) :=
  [ ("contract_id", Some "C-1");
    ("contract_description", None);
    ("contractor", None);
    ("implementing_office", None);
    ("source_of_funds", None);
    ("contract_cost_php", None);
    ("contract_effectivity_date", None);
    ("contract_expiry_date", None);
    ("status", None);
    ("percent_accomplishment", None) ].

End Assembler.

Module Extractor.
Import extract_contracts.

(** The JSON text of a run on [html_source]: what [main] writes or prints. *)
Definition serialized (max_str_digits : nat)
    (tokenize : string → list event * option exn)
    (enumerate : gset N → list N) (float_repr : spec_float → string)
    (indent : Z) (html_source : string) : result string :=
  contracts ← parse_contracts max_str_digits tokenize enumerate html_source;
  Ok (json_payload float_repr indent contracts).


(** A world with the markup of the example in [x.html] of the working
    directory [/work], which also holds the directory [out]. *)
Definition two_rows_world : Posix.world :=
  {| Posix.nodes := {[ "/work" := Posix.Dir;
                       "/work/x.html" := Posix.File Assembler.two_rows_html;
                       "/work/out" := Posix.Dir ]};
     Posix.cwd := PurePath.parse "/work";
     Posix.stdout := "" |}.

End Extractor.

Module Combiner.
Import combine_json.

(** The path [main] writes to. *)
Definition output_path_of (resolve : PurePath.t → PurePath.t) (a : args)
  : PurePath.t :=
  if PurePath.is_absolute (output a) then output a
  else PurePath.joinpath (resolve (directory a)) (output a).

(** The candidate files of a run, in the order [main] loads them. *)
Definition candidates (resolve : PurePath.t → PurePath.t)
    (scandir : PurePath.t → option (list string)) (a : args)
  : list PurePath.t :=
  collect_json_files resolve scandir (resolve (directory a))
    (output_path_of resolve a).

Section Run.

Variable json_load : string → result Json.value.
Variable float_repr : spec_float → string.
Context {W : Type}.
Variable os : OS.t W.

(** The file at [path] can be read and [json.load] returns [data] for it. *)
Definition holds (w : W) (path : PurePath.t) (data : Json.value) : Prop :=
  ∃ text, OS.read_text os w path = Ok text ∧ json_load text = Ok data.

(** Opening, reading or decoding the file at [path] raises [e]. *)
Definition fails (w : W) (path : PurePath.t) (e : exn) : Prop :=
  (text ← OS.read_text os w path; json_load text) = Raise e.

(** The end of a run that has loaded [entries] from [n_files] files: the
    entries are written and, when that succeeded, the summary is printed. *)
Definition finish (w : W) (output_path : PurePath.t) (n_files : nat)
    (entries : list Json.value) : W * result unit :=
  match write_combined_json float_repr os w output_path entries with
  | (w, Raise e) => (w, Raise e)
  | (w, Ok _) => OS.print os w (summary n_files output_path (length entries))
  end.

End Run.

(** A small instance: the directory [/data], a decoder that knows four
    texts and takes every other text for a syntax error, and worlds whose
    [b.json] is an array, an object, broken or not even text.  The fourth
    text is an array with an integer of 4301 digits, which the decoder
    refuses with the [ValueError] of [int]. *)
Definition long_int_text : string := "[" +:+ PyStr.repeat "1" 4301 +:+ "]".

Definition toy_json_load (text : string) : result Json.value :=
  if decide (text = "[1, 2]")
  then Ok (Json.PyList [Json.PyInt 1; Json.PyInt 2])
  else if decide (text = "[3]") then Ok (Json.PyList [Json.PyInt 3])
  else if decide (text = "{}") then Ok (Json.PyDict [])
  else if decide (text = long_int_text) then Raise ValueError
  else Raise JSONDecodeError.

Definition data_dir : PurePath.t := PurePath.parse "/data".

Definition data_args : args :=
  {| directory := data_dir; output := PurePath.parse "all.json" |}.

Definition data_scandir (entries : list string) (p : PurePath.t)
  : option (list string) :=
  if decide (p = data_dir) then Some entries else None.

Definition data_world (b_json : Posix.node) : Posix.world :=
  {| Posix.nodes := {[ "/data" := Posix.Dir;
                       "/data/a.json" := Posix.File "[1, 2]";
                       "/data/b.json" := b_json;
                       "/data/notes.txt" := Posix.File "to do";
                       "/data/all.json" := Posix.File "old" ]};
     Posix.cwd := PurePath.parse "/";
     Posix.stdout := "" |}.

(** A directory without candidates. *)
Definition notes_world : Posix.world :=
  {| Posix.nodes := {[ "/data" := Posix.Dir;
                       "/data/notes.txt" := Posix.File "to do" ]};
     Posix.cwd := PurePath.parse "/";
     Posix.stdout := "" |}.

End Combiner.

(** ** Further notions used in the statements *)

Module ScannerMore.
Import extract_contracts.

(** The id that a start tag makes current: the non-empty id of a span. *)
Definition identified (tag : string)
    (attrs : list (string * option string)) : option string :=
  if decide (PyStr.lower tag = "span")
  then match Scanner.id_attr attrs with
       | Some element_id =>
           if PyStr.truthy element_id then Some element_id else None
       | None => None
       end
  else None.

(** The ids of the identified spans that open in a list of events. *)
Definition span_ids (events : list event) : list string :=
  omap (λ ev, match ev with
              | StartTag tag attrs => identified tag attrs
              | _ => None
              end) events.

End ScannerMore.

Module CombinerMore.
Import combine_json Combiner.

(** What [load_json_as_list] makes of the value of a file. *)
Definition normalize (data : Json.value) : list Json.value :=
  match data with
  | Json.PyList items => items
  | _ => [data]
  end.

End CombinerMore.

(** * Properties *)

(** ** Strings *)

Module PyStrFacts.
Import PyStr.

Lemma truthy_true (s : string) : truthy s = true ↔ s ≠ "".
Proof. destruct s; simpl; split; congruence. Qed.

Lemma truthy_false (s : string) : truthy s = false ↔ s = "".
Proof. destruct s; simpl; split; congruence. Qed.

Lemma sapp_nil_l (s : string) : "" +:+ s = s.
Proof. reflexivity. Qed.

Lemma sapp_cons (c : ascii) (a b : string) :
  String c a +:+ b = String c (a +:+ b).
Proof. reflexivity. Qed.

Lemma sapp_nil_r (s : string) : s +:+ "" = s.
Proof. induction s as [|c s IH]; [done|]. by rewrite sapp_cons, IH. Qed.

Lemma sapp_assoc (a b c : string) : (a +:+ b) +:+ c = a +:+ b +:+ c.
Proof. induction a as [|x a IH]; [done|]. by rewrite !sapp_cons, IH. Qed.

Lemma sapp_length (a b : string) :
  String.length (a +:+ b) = (String.length a + String.length b)%nat.
Proof. induction a as [|x a IH]; [done|]. rewrite sapp_cons. simpl. by rewrite IH. Qed.

Lemma sapp_inv_tail (a b c : string) : a +:+ c = b +:+ c → a = b.
Proof.
  revert b. induction a as [|x a IH]; intros [|y b] H; [done| | |].
  - apply (f_equal String.length) in H.
    rewrite (sapp_length (String y b)), sapp_nil_l in H. simpl in H. lia.
  - apply (f_equal String.length) in H.
    rewrite (sapp_length (String x a)), sapp_nil_l in H. simpl in H. lia.
  - rewrite !sapp_cons in H. injection H as -> H. f_equal. by apply IH.
Qed.

Lemma head_app (a b : string) : truthy a = true → head (a +:+ b) = head a.
Proof. by destruct a. Qed.

Lemma last_app (a b : string) : truthy b = true → last (a +:+ b) = last b.
Proof.
  intros Hb. induction a as [|x a IH]; [done|].
  rewrite sapp_cons. simpl. rewrite IH.
  destruct (a +:+ b) eqn:E; [|done].
  destruct a, b; simplify_eq/=.
Qed.

Lemma lstrip_head (s : string) (c : ascii) :
  head (lstrip s) = Some c → is_space c = false.
Proof.
  induction s as [|x s IH]; simpl; [done|].
  destruct (is_space x) eqn:E; [done|]. simpl. by intros [= <-].
Qed.

Lemma rstrip_last (s : string) (c : ascii) :
  last (rstrip s) = Some c → is_space c = false.
Proof.
  revert c. induction s as [|x s IH]; intros c; simpl; [done|].
  destruct (rstrip s) as [|y r] eqn:E.
  - destruct (is_space x) eqn:Ex; simpl; [done|]. by intros [= <-].
  - simpl. apply IH.
Qed.

Lemma rstrip_head (s : string) (c : ascii) :
  head (rstrip s) = Some c → head s = Some c.
Proof.
  destruct s as [|x s]; simpl; [done|].
  destruct (rstrip s); [destruct (is_space x)|]; simpl; done.
Qed.

Lemma strip_trimmed (s : string) : trimmed (strip s).
Proof.
  split; intros c Hc.
  - apply rstrip_head in Hc. by apply lstrip_head in Hc.
  - by apply rstrip_last in Hc.
Qed.

Lemma trimmed_empty : trimmed "".
Proof. by split. Qed.

Lemma trimmed_join (a b : string) :
  truthy a = true → truthy b = true → trimmed a → trimmed b →
  trimmed (a +:+ " " +:+ b).
Proof.
  intros Ha Hb [Ha1 _] [_ Hb2]. split; intros c.
  - rewrite head_app by done. apply Ha1.
  - rewrite last_app by (by destruct b). change (" " +:+ b) with (String " " b).
    destruct b; [done|]. simpl. apply Hb2.
Qed.

End PyStrFacts.

(** ** Lists *)

Module ListFacts.

Lemma StronglySorted_fmap_elem_of {A B} (R1 : relation A) (R2 : relation B)
    (f : A → B) (l : list A) :
  (∀ x y, x ∈ l → y ∈ l → R1 x y → R2 (f x) (f y)) →
  StronglySorted R1 l → StronglySorted R2 (f <$> l).
Proof.
  intros Hf Hs. induction Hs as [|x l Hs IH Hall]; simpl; constructor.
  - apply IH. intros y z Hy Hz. apply Hf; by right.
  - rewrite Forall_fmap, Forall_forall. rewrite Forall_forall in Hall.
    intros y Hy. apply Hf; [left|by right|by apply Hall].
Qed.

Lemma StronglySorted_filter {A} (R : relation A) (P : A → Prop)
    `{!∀ x, Decision (P x)} (l : list A) :
  StronglySorted R l → StronglySorted R (filter P l).
Proof.
  intros Hs. induction Hs as [|x l Hs IH Hall]; [constructor|].
  rewrite filter_cons. case_decide; [|done]. constructor; [done|].
  rewrite Forall_forall in Hall |- *.
  intros y [_ Hy]%list_elem_of_filter. by apply Hall.
Qed.

End ListFacts.

(** ** The markup scanner *)

Module ScannerFacts.
Import extract_contracts ContractHTMLParser Scanner PyStr PyStrFacts.

Lemma setdefault_lookup {V} (k k' : string) (v : V) (d : gmap string V) :
  setdefault k v d !! k' =
    if decide (k = k') then Some (default v (d !! k)) else d !! k'.
Proof.
  unfold setdefault. destruct (d !! k) as [x|] eqn:E; case_decide; subst;
    simpl; rewrite ?lookup_insert_eq, ?lookup_insert_ne; done.
Qed.

Lemma handle_starttag_neutral (self : t) tag attrs :
  lower tag ≠ "span" ∨ truthy_opt (id_attr attrs) = false →
  handle_starttag self tag attrs = self.
Proof.
  intros H. unfold handle_starttag. case_decide as Htag; [done|].
  destruct H as [H|H]; [by destruct Htag|].
  unfold id_attr in H. destruct (mjoin (dict attrs !! "id")) as [i|]; [|done].
  simpl in H. by rewrite H.
Qed.

Lemma handle_endtag_neutral (self : t) tag :
  lower tag ≠ "span" → handle_endtag self tag = self.
Proof. intros H. unfold handle_endtag. by case_decide. Qed.

Lemma handle_data_current_id (self self' : t) data :
  handle_data self data = Ok self' → _current_id self' = _current_id self.
Proof.
  unfold handle_data. intros H.
  repeat (case_match; simplify_eq/=); done.
Qed.

Lemma feed_transparent (self : t) (events : list event) :
  Forall transparent events →
  feed self events = feed self (Data <$> text_nodes events) ∧
  ∀ self', feed self events = Ok self' → _current_id self' = _current_id self.
Proof.
  intros H. revert self. induction H as [|ev events Hev _ IH]; intros self.
  { split; [done|]. by intros ? [= <-]. }
  destruct ev as [tag attrs|data|tag]; simpl in *.
  - rewrite handle_starttag_neutral by done. apply IH.
  - destruct (handle_data self data) as [self1|e] eqn:E; simpl; [|done].
    destruct (IH self1) as [-> IH2]. split; [done|].
    intros self' Hf. rewrite (IH2 _ Hf). by eapply handle_data_current_id.
  - rewrite handle_endtag_neutral by done. apply IH.
Qed.

(** *** The invariant of the scanner *)

Lemma init_consistent : consistent init.
Proof. split; simpl; intros ??; [done|]. by rewrite lookup_empty. Qed.

Lemma handle_starttag_consistent (self : t) tag attrs :
  consistent self → consistent (handle_starttag self tag attrs).
Proof.
  intros [Hc Hv]. unfold handle_starttag. case_decide; [done|].
  destruct (mjoin _) as [i|]; [|done].
  destruct (truthy i) eqn:Hi; [|done].
  split; simpl.
  - intros cid [= <-]. split; [done|]. rewrite setdefault_lookup.
    by rewrite decide_True.
  - intros k v. rewrite setdefault_lookup. case_decide; [|apply Hv].
    intros [= <-]. destruct (values self !! i) as [x|] eqn:E; simpl.
    + by eapply Hv. + apply trimmed_empty.
Qed.

Lemma handle_endtag_consistent (self : t) tag :
  consistent self → consistent (handle_endtag self tag).
Proof.
  intros [Hc Hv]. unfold handle_endtag. case_decide; [|done].
  split; simpl; [done|apply Hv].
Qed.

(** A text event never raises in a consistent state, and says what it did. *)
Lemma handle_data_consistent (self : t) cid data :
  consistent self → _current_id self = Some cid →
  ∃ cur, values self !! cid = Some cur ∧ trimmed cur ∧
    handle_data self data =
      Ok (if truthy (strip data)
          then {| _current_id := Some cid;
                  values := <[cid := if truthy cur
                                     then cur +:+ " " +:+ strip data
                                     else strip data]> (values self) |}
          else self) ∧
    (truthy (strip data) = true →
     trimmed (if truthy cur then cur +:+ " " +:+ strip data else strip data)).
Proof.
  intros [Hc Hv] Hcid. destruct (Hc _ Hcid) as [Ht [cur Hcur]].
  exists cur. split; [done|]. split; [by eapply Hv|]. split.
  - unfold handle_data. rewrite Hcid, Ht. simpl.
    destruct (truthy (strip data)); simpl; [|done].
    rewrite Hcur. by destruct (truthy cur).
  - intros Hd. destruct (truthy cur) eqn:E; [|apply strip_trimmed].
    apply trimmed_join; eauto using strip_trimmed.
Qed.

Lemma handle_consistent (self : t) (ev : event) :
  consistent self → ∃ self', handle self ev = Ok self' ∧ consistent self'.
Proof.
  intros Hs. destruct ev as [tag attrs|data|tag]; simpl.
  - eauto using handle_starttag_consistent.
  - destruct (_current_id self) as [cid|] eqn:Hcid.
    + destruct (handle_data_consistent self cid data Hs Hcid)
        as (cur & Hcur & Htc & Heq & Htr).
      rewrite Heq. eexists; split; [done|].
      destruct (truthy (strip data)); [|done].
      destruct Hs as [Hc Hv]. split; simpl.
      * intros ? [= <-]. split; [by apply Hc|]. by rewrite lookup_insert_eq.
      * intros k v. rewrite lookup_insert. case_decide; [|apply Hv].
        intros [= <-]. by apply Htr.
    + exists self. split; [|done]. unfold handle_data. by rewrite Hcid.
  - eauto using handle_endtag_consistent.
Qed.

Lemma feed_consistent (events : list event) (self : t) :
  consistent self → ∃ self', feed self events = Ok self' ∧ consistent self'.
Proof.
  revert self. induction events as [|ev events IH]; intros self Hs; simpl.
  { by exists self. }
  destruct (handle_consistent self ev Hs) as (self1 & -> & Hs1). simpl.
  by apply IH.
Qed.

(** [feed] never raises. *)
Lemma feed_init_total (events : list event) :
  ∃ self, feed init events = Ok self ∧ consistent self.
Proof. apply feed_consistent, init_consistent. Qed.

(** *** Text nodes inside one span *)

Lemma join_merge (a b : string) (l : list string) :
  join " " (a :: b :: l) = join " " ((a +:+ " " +:+ b) :: l).
Proof.
  destruct l as [|c l]; [done|].
  change (a +:+ " " +:+ b +:+ " " +:+ join " " (c :: l)
          = (a +:+ " " +:+ b) +:+ " " +:+ join " " (c :: l)).
  by rewrite !sapp_assoc.
Qed.

Lemma joined_nil (cur : string) : joined cur [] = cur.
Proof.
  unfold joined. rewrite fmap_nil, filter_cons, filter_nil.
  case_decide as H; [done|]. by destruct cur.
Qed.

Lemma joined_cons (cur data : string) (texts : list string) :
  joined cur (data :: texts) =
    joined (if truthy (strip data)
            then (if truthy cur then cur +:+ " " +:+ strip data else strip data)
            else cur) texts.
Proof.
  unfold joined. rewrite fmap_cons, !filter_cons.
  destruct (truthy (strip data)) eqn:Hd, (truthy cur) eqn:Hc; simpl;
    repeat case_decide; try done.
  - apply join_merge.
  - by destruct cur.
Qed.

Lemma feed_text_nodes (texts : list string) (self : t) cid :
  consistent self → _current_id self = Some cid →
  ∃ cur self', values self !! cid = Some cur ∧
    feed self (Data <$> texts) = Ok self' ∧
    _current_id self' = Some cid ∧
    values self' = <[cid := joined cur texts]> (values self) ∧
    consistent self'.
Proof.
  revert self. induction texts as [|data texts IH]; intros self Hs Hcid.
  - destruct (proj1 Hs _ Hcid) as [_ [cur Hcur]].
    exists cur, self. by rewrite joined_nil, insert_id.
  - destruct (handle_data_consistent self cid data Hs Hcid)
      as (cur & Hcur & Htc & Heq & Htr).
    destruct (handle_consistent self (Data data) Hs) as (self1 & Hh & Hs1).
    simpl in Hh. rewrite fmap_cons. simpl. rewrite Hh. simpl.
    assert (_current_id self1 = Some cid) as Hcid1.
    { rewrite (handle_data_current_id _ _ _ Hh). done. }
    destruct (IH self1 Hs1 Hcid1) as (cur1 & self' & Hcur1 & Hf & Hid & Hval & Hs').
    exists cur, self'. split_and!; try done.
    rewrite Hval, joined_cons. rewrite Heq in Hh. injection Hh as <-.
    destruct (truthy (strip data)); simpl in *.
    + rewrite lookup_insert_eq in Hcur1. injection Hcur1 as <-.
      by rewrite insert_insert_eq.
    + by simplify_eq.
Qed.

End ScannerFacts.

(** *** The claims about the scanner *)

Section ScannerClaims.
Import extract_contracts ContractHTMLParser Scanner PyStr.

(** C9. A start tag that is no span, or a span whose id attribute is
    missing, has no value or is empty, leaves the scanner as it was: the
    current id and the accumulated mapping.  Hence up to the next end tag of
    a span or start tag of an identified span ([inner] holds neither) the
    current id stays, the tags in [inner] do nothing, and the text nodes in
    [inner] are handled exactly as if they stood directly in the enclosing
    span. *)
Theorem unidentified_starttag_keeps_state (self : t) (tag : string)
    (attrs : list (string * option string)) :
  lower tag ≠ "span" ∨ truthy_opt (id_attr attrs) = false →
  handle_starttag self tag attrs = self ∧
  ∀ inner : list event, Forall transparent inner →
    feed self (StartTag tag attrs :: inner)
      = feed self (Data <$> text_nodes inner) ∧
    ∀ self', feed self (StartTag tag attrs :: inner) = Ok self' →
             _current_id self' = _current_id self.
Proof.
  intros H. split; [by apply ScannerFacts.handle_starttag_neutral|].
  intros inner Hinner.
  apply (ScannerFacts.feed_transparent self (StartTag tag attrs :: inner)).
  by constructor.
Qed.

(** Inside [<span id="a">], the tag [<b class="x">] and the text after it. *)
Lemma unidentified_starttag_keeps_state_witness :
  let self := {| _current_id := Some "a"; values := {[ "a" := "x" ]} |} in
  handle_starttag self "b" [("class", Some "x")] = self ∧
  feed self [StartTag "b" [("class", Some "x")]; Data " y "; EndTag "b"]
    = feed self [Data " y "] ∧
  feed self [StartTag "b" [("class", Some "x")]; Data " y "; EndTag "b"]
    = Ok {| _current_id := Some "a"; values := {[ "a" := "x y" ]} |}.
Proof.
  intros self.
  destruct (unidentified_starttag_keeps_state self "b" [("class", Some "x")])
    as [H1 H2].
  { left. vm_compute. congruence. }
  split; [exact H1|].
  destruct (H2 [Data " y "; EndTag "b"]) as [H3 _].
  { repeat constructor. vm_compute. congruence. }
  split; [exact H3|]. rewrite H3. reflexivity.
Defined.

(** C6. In every state the scanner reaches with a current id [cid], that id
    has an accumulated text [cur], and a text event whose stripped text is
    not empty replaces [cur] by the stripped text when [cur] is empty (no
    leading space) and by [cur], one space and the stripped text otherwise;
    the new text neither starts nor ends with whitespace.  So the text nodes
    [texts] of a span leave [cur] and their non-empty stripped texts joined
    by single spaces. *)
Theorem text_event_appends_with_single_space (events : list event) (self : t)
    (cid : string) :
  feed init events = Ok self →
  _current_id self = Some cid →
  ∃ cur, values self !! cid = Some cur ∧
    (∀ data, truthy (strip data) = true →
       let text := if truthy cur then cur +:+ " " +:+ strip data
                   else strip data in
       handle_data self data
         = Ok {| _current_id := Some cid;
                 values := <[cid := text]> (values self) |} ∧
       trimmed text) ∧
    (∀ texts, ∃ self',
       feed self (Data <$> texts) = Ok self' ∧
       _current_id self' = Some cid ∧
       values self' = <[cid := joined cur texts]> (values self) ∧
       trimmed (joined cur texts)).
Proof.
  intros Hfeed Hcid.
  destruct (ScannerFacts.feed_init_total events) as (self0 & Hf0 & Hs).
  rewrite Hfeed in Hf0. injection Hf0 as <-.
  destruct (proj1 Hs _ Hcid) as [_ [cur Hcur]].
  exists cur. split; [done|]. split.
  - intros data Hd.
    destruct (ScannerFacts.handle_data_consistent self cid data Hs Hcid)
      as (cur' & Hcur' & _ & Heq & Htr).
    rewrite Hcur in Hcur'. injection Hcur' as <-.
    rewrite Heq, Hd. split; [done|]. by apply Htr.
  - intros texts.
    destruct (ScannerFacts.feed_text_nodes texts self cid Hs Hcid)
      as (cur' & self' & Hcur' & Hf & Hid & Hval & Hs').
    rewrite Hcur in Hcur'. injection Hcur' as <-.
    exists self'. split_and!; try done.
    apply (proj2 Hs' cid). by rewrite Hval, lookup_insert_eq.
Qed.

(** [<span id="a"> 12 <b> Main  St </b>] *)
Lemma text_event_appends_with_single_space_witness :
  ∃ self,
    feed init [StartTag "span" [("id", Some "a")]; Data " 12 "] = Ok self ∧
    _current_id self = Some "a" ∧
    values self !! "a" = Some "12" ∧
    handle_data self " Main  St "
      = Ok {| _current_id := Some "a";
              values := <["a" := "12 Main  St"]> (values self) |}.
Proof.
  eexists. split; [reflexivity|]. split; [reflexivity|].
  destruct (text_event_appends_with_single_space
              [StartTag "span" [("id", Some "a")]; Data " 12 "] _ "a"
              eq_refl eq_refl) as (cur & Hcur & Hone & _).
  vm_compute in Hcur. injection Hcur as <-.
  split; [reflexivity|].
  exact (proj1 (Hone " Main  St " eq_refl)).
Defined.

End ScannerClaims.

(** ** The embedding on small inputs *)

Example str_methods :
  PyStr.split "." "a.tar.gz" = ["a"; "tar"; "gz"] ∧
  PyStr.split "." "a..b" = ["a"; ""; "b"] ∧
  PyStr.split "." "" = [""] ∧
  PyStr.join "/" ["a"; "b"; "c"] = "a/b/c" ∧
  PyStr.endswith ".json" "a.json" = true ∧
  PyStr.endswith ".json" ".json" = true ∧
  PyStr.endswith ".json" "a.JSON" = false ∧
  PyStr.drop_last 2 "abcde" = "abc" ∧
  PyStr.lower "SpAn" = "span" ∧
  PyStr.strip ("  a  b  " +:+ PyStr.LF) = "a  b" ∧
  PyStr.strip (String (ascii_of_N 160) " ") = "".
Proof. repeat split; reflexivity. Qed.

Example numerals :
  PyStr.of_nat_N 0 = "0" ∧ PyStr.of_nat_N 120 = "120" ∧
  PyStr.to_N "007" = Some 7 ∧ PyStr.to_N "" = None ∧ PyStr.to_N "1a" = None ∧
  PyStr.of_Z (-5) = "-5" ∧
  PyStr.int 4300 "007" = Ok 7 ∧ PyStr.int 4300 "" = Raise ValueError ∧
  PyStr.int 4300 (PyStr.repeat "0" 4300) = Ok 0 ∧
  PyStr.int 4300 (PyStr.repeat "0" 4301) = Raise ValueError ∧
  PyStr.int 0 (PyStr.repeat "0" 4301) = Ok 0 ∧
  PyStr.int 100 (PyStr.repeat "0" 640) = Ok 0.
Proof. repeat split; vm_compute; reflexivity. Qed.

Example paths :
  PurePath.str (PurePath.parse "./out//data.tar.gz") = "out/data.tar.gz" ∧
  PurePath.suffixes (PurePath.parse "out/data.tar.gz") = [".tar"; ".gz"] ∧
  PurePath.suffixes (PurePath.parse "a/.hidden") = [] ∧
  PurePath.suffixes (PurePath.parse "a/x.") = [] ∧
  PurePath.suffixes (PurePath.parse "a..b") = ["."; ".b"] ∧
  PurePath.name (PurePath.parse ".") = "" ∧
  PurePath.name (PurePath.parse "/") = "" ∧
  PurePath.name (PurePath.parse "..") = ".." ∧
  PurePath.str (PurePath.parse "/") = "/" ∧
  PurePath.str (PurePath.joinpath (PurePath.parse "/data") (PurePath.parse "all.json"))
    = "/data/all.json" ∧
  PurePath.with_name (PurePath.parse "a/b.txt") "c.txt" = Ok (PurePath.parse "a/c.txt") ∧
  PurePath.with_name (PurePath.parse ".") "c.txt" = Raise ValueError ∧
  PurePath.str (PurePath.parent (PurePath.parse "/data/all.json")) = "/data" ∧
  PurePath.str (PurePath.parent (PurePath.parse "all.json")) = "." ∧
  PurePath.str (PurePath.parent (PurePath.parse "/")) = "/".
Proof. repeat split; reflexivity. Qed.

Example counted_names :
  extract_contracts.counted_name (PurePath.parse "out/contracts.json") 12
    = "contracts_12.json" ∧
  extract_contracts.counted_name (PurePath.parse "data.tar.gz") 0
    = "data_0.tar.gz" ∧
  extract_contracts.counted_name (PurePath.parse "contracts") 3
    = "contracts_3" ∧
  extract_contracts.counted_name (PurePath.parse ".hidden") 3 = ".hidden_3" ∧
  extract_contracts.counted_name (PurePath.parse "a.b.") 3 = "a.b._3".
Proof. repeat split; reflexivity. Qed.

Example dumps_indent_2 :
  Json.dumps (λ _, "") 2
    (Json.PyList [Json.PyInt 1; Json.PyDict [("x", Json.PyNone)]; Json.PyList []])
  = "[
  1,
  {
    " +:+ PyStr.DQUOTE +:+ "x" +:+ PyStr.DQUOTE +:+ ": null
  },
  []
]".
Proof. reflexivity. Qed.

Example dumps_indent_0 :
  Json.dumps (λ _, "") 0 (Json.PyList [Json.PyBool true; Json.PyStr "é"])
  = "[
true,
" +:+ PyStr.DQUOTE +:+ "é" +:+ PyStr.DQUOTE +:+ "
]".
Proof. reflexivity. Qed.

Example escapes :
  Json.escape ("a\b" +:+ PyStr.LF +:+ String (ascii_of_N 31) "")
    = "a\\b\n\u001f" ∧
  String.length (Json.escape "\") = 2%nat.
Proof. split; reflexivity. Qed.

Example index_pattern :
  Assembler.row_index "Repeater1_lblCustomerId_12" = Some 12 ∧
  Assembler.row_index ("Repeater1_x_007" +:+ PyStr.LF) = Some 7 ∧
  Assembler.row_index "Repeater1_a_b_1" = None ∧
  Assembler.row_index "Repeater1__1" = None ∧
  Assembler.row_index "xRepeater1_a_1" = None ∧
  Assembler.row_index "Repeater1_a_" = None ∧
  Assembler.row_index "Repeater1_a_1x" = None ∧
  extract_contracts.format "Repeater1_Label5_{idx}" 30 = "Repeater1_Label5_30".
Proof. repeat split; reflexivity. Qed.

Example scanner_run :
  extract_contracts.ContractHTMLParser.values <$>
    extract_contracts.ContractHTMLParser.feed
      extract_contracts.ContractHTMLParser.init
      [ extract_contracts.Data "ignored";
        extract_contracts.StartTag "SPAN" [("id", Some "old"); ("id", Some "a")];
        extract_contracts.Data " one ";
        extract_contracts.StartTag "br" [];
        extract_contracts.Data "two";
        extract_contracts.EndTag "span";
        extract_contracts.Data "ignored";
        extract_contracts.StartTag "span" [("id", None)];
        extract_contracts.Data "ignored";
        extract_contracts.StartTag "span" [("id", Some "a")];
        extract_contracts.Data "three" ]
  = Ok {[ "a" := "one two three" ]}.
Proof. reflexivity. Qed.

Example file_system :
  let w := Combiner.data_world Posix.Binary in
  Posix.scandir w (PurePath.parse "/data/a.json") = None ∧
  Posix.scandir w (PurePath.parse "data/../data")
    = Some ["a.json"; "all.json"; "notes.txt"; "b.json"] ∧
  Posix.read_text w (PurePath.parse "data/a.json") = Ok "[1, 2]" ∧
  Posix.read_text w (PurePath.parse "/data/b.json") = Raise UnicodeDecodeError ∧
  Posix.read_text w (PurePath.parse "/data")
    = Raise (IsADirectoryError "/data") ∧
  Posix.read_text w (PurePath.parse "/data/c.json")
    = Raise (FileNotFoundError "/data/c.json") ∧
  (Posix.write_text w (PurePath.parse "/data") "x").2
    = Raise (IsADirectoryError "/data") ∧
  (Posix.write_text w (PurePath.parse "/out/all.json") "x").2
    = Raise (FileNotFoundError "/out/all.json") ∧
  (Posix.write_text w (PurePath.parse "/data/a.json/x") "x").2
    = Raise (NotADirectoryError "/data/a.json/x") ∧
  (Posix.mkdir w (PurePath.parse "/data/a.json")).2
    = Raise (FileExistsError "/data/a.json") ∧
  Posix.nodes (Posix.mkdir w (PurePath.parse "/out/sub")).1
    = <["/out/sub" := Posix.Dir]> (<["/out" := Posix.Dir]> (Posix.nodes w)) ∧
  Posix.read_text (Posix.write_text w (PurePath.parse "/data/b.json")
                     ("a" +:+ String "013" PyStr.LF +:+ "b")).1
    (PurePath.parse "/data/b.json") = Ok ("a" +:+ PyStr.LF +:+ "b").
Proof.
  intros w. split_and!; vm_compute; reflexivity.
Qed.

(** ** The record assembler *)

Module AssemblerFacts.
Import extract_contracts Assembler PyStr PyStrFacts.

(** *** Ordered dictionaries *)

Lemma odict_set_fresh {V} (k : string) (v : V) (d : list (string * V)) :
  k ∉ d.*1 → odict_set k v d = d ++ [(k, v)].
Proof.
  induction d as [|[k' v'] d IH]; simpl; [done|].
  rewrite not_elem_of_cons. intros [Hne Hnin].
  rewrite decide_False by done. by rewrite IH.
Qed.

Lemma foldl_odict_set {A V} (key : A → string) (val : A → V) (items : list A)
    (d : list (string * V)) :
  NoDup (d.*1 ++ (key <$> items)) →
  foldl (λ d item, odict_set (key item) (val item) d) d items
    = d ++ ((λ item, (key item, val item)) <$> items).
Proof.
  revert d. induction items as [|item items IH]; intros d Hnd; simpl.
  { by rewrite app_nil_r. }
  rewrite odict_set_fresh.
  - rewrite IH.
    + by rewrite <- app_assoc.
    + rewrite fmap_app. simpl. rewrite <- app_assoc. done.
  - apply NoDup_app in Hnd as (_ & Hnd & _). intros Hin.
    apply (Hnd _ Hin). left.
Qed.

Lemma foldl_pointwise {A B} (f g : A → B → A) (l : list B) (a : A) :
  (∀ a x, f a x = g a x) → foldl f a l = foldl g a l.
Proof.
  intros H. revert a. induction l as [|x l IH]; intros a; simpl; [done|].
  by rewrite H, IH.
Qed.

(** *** One record *)

Lemma field_names_NoDup : NoDup field_names.
Proof. apply (bool_decide_unpack _). by vm_compute. Qed.

Lemma build_record_fmap (raw_values : gmap string string) (idx : N) :
  build_record raw_values idx
    = (λ item, (item.1, raw_values !! format item.2 idx)) <$> FIELD_ID_MAP.
Proof.
  pose proof (foldl_odict_set fst (λ item, raw_values !! format item.2 idx)
                FIELD_ID_MAP [] field_names_NoDup) as H.
  rewrite app_nil_l in H. rewrite <- H.
  unfold build_record. apply foldl_pointwise. by intros d [field id_template].
Qed.

Lemma build_record_keys (raw_values : gmap string string) (idx : N) :
  (build_record raw_values idx).*1 = field_names.
Proof.
  rewrite build_record_fmap. unfold field_names.
  rewrite <- list_fmap_compose. done.
Qed.

Lemma format_contract_id (idx : N) :
  format "Repeater1_lblCustomerId_{idx}" idx = contract_id_key idx.
Proof.
  unfold format, contract_id_key.
  rewrite <- (sapp_nil_r (of_nat_N idx)) at 2. reflexivity.
Qed.

Lemma build_record_contract_id (raw_values : gmap string string) (idx : N) :
  mjoin (odict_get "contract_id" (build_record raw_values idx))
    = raw_values !! contract_id_key idx.
Proof.
  rewrite build_record_fmap, <- format_contract_id. reflexivity.
Qed.

(** *** The loop over the indices *)

Lemma foldl_keep {A B} (keep : A → bool) (f : A → B) (l : list A) (acc : list B) :
  foldl (λ acc x, if keep x then acc ++ [f x] else acc) acc l
    = acc ++ (f <$> filter (λ x, keep x = true) l).
Proof.
  revert acc. induction l as [|x l IH]; intros acc; simpl.
  { by rewrite app_nil_r. }
  rewrite IH, filter_cons. destruct (keep x) eqn:E.
  - rewrite decide_True by done. by rewrite <- app_assoc.
  - rewrite decide_False by congruence. done.
Qed.

Lemma assemble_filter (raw_values : gmap string string) (indices : list N) :
  assemble raw_values indices
    = build_record raw_values
        <$> filter (λ idx, truthy_opt (raw_values !! contract_id_key idx) = true)
              indices.
Proof.
  unfold assemble.
  rewrite (foldl_pointwise _
             (λ acc idx, if truthy_opt (raw_values !! contract_id_key idx)
                         then acc ++ [build_record raw_values idx] else acc)).
  - by rewrite foldl_keep.
  - intros acc idx. by rewrite build_record_contract_id.
Qed.

(** *** The sorted indices *)

Lemma sorted_StronglySorted (l : list N) : StronglySorted N.le (sorted l).
Proof. apply StronglySorted_merge_sort; apply _. Qed.

Lemma sorted_Permutation (l : list N) : sorted l ≡ₚ l.
Proof. apply merge_sort_Permutation. Qed.

(** [sorted] of a set does not depend on the order of iteration. *)
Lemma sorted_any_order (l1 l2 : list N) : l1 ≡ₚ l2 → sorted l1 = sorted l2.
Proof.
  intros H. apply (StronglySorted_unique N.le); try apply sorted_StronglySorted.
  by rewrite !sorted_Permutation.
Qed.

Lemma StronglySorted_le_lt (l : list N) :
  NoDup l → StronglySorted N.le l → StronglySorted N.lt l.
Proof.
  intros Hnd Hs. induction Hs as [|x l Hs IH Hall]; [constructor|].
  apply NoDup_cons in Hnd as [Hx Hnd]. constructor; [by apply IH|].
  rewrite Forall_forall in Hall |- *. intros y Hy.
  specialize (Hall y Hy). assert (x ≠ y) by (intros ->; done). lia.
Qed.

Section Enumeration.

Variable enumerate : gset N → list N.
Hypothesis enumerate_perm : ∀ s, enumerate s ≡ₚ elements s.

Lemma sorted_enumerate (s : gset N) :
  sorted (enumerate s) = sorted (elements s).
Proof. apply sorted_any_order, enumerate_perm. Qed.

Lemma sorted_enumerate_ascending (s : gset N) :
  StronglySorted N.lt (sorted (enumerate s)).
Proof.
  apply StronglySorted_le_lt; [|apply sorted_StronglySorted].
  rewrite sorted_Permutation, enumerate_perm. apply NoDup_elements.
Qed.

Lemma elem_of_sorted_enumerate (s : gset N) (idx : N) :
  idx ∈ sorted (enumerate s) ↔ idx ∈ s.
Proof. by rewrite sorted_Permutation, enumerate_perm, elem_of_elements. Qed.

End Enumeration.

End AssemblerFacts.

(** ** Paths and file names *)

Module PathFacts.
Import PyStr PyStrFacts.



Lemma take_app_length (a b : string) : take (String.length a) (a +:+ b) = a.
Proof.
  induction a as [|x a IH]; [by destruct b|].
  rewrite sapp_cons. simpl. by rewrite IH.
Qed.

Lemma drop_last_app (a b : string) : drop_last (String.length b) (a +:+ b) = a.
Proof.
  unfold drop_last. rewrite sapp_length.
  replace (String.length a + String.length b - String.length b)%nat
    with (String.length a) by lia.
  apply take_app_length.
Qed.

Lemma lstrip_char_app (c : ascii) (s : string) :
  ∃ dots, s = dots +:+ lstrip_char c s.
Proof.
  induction s as [|x s [dots IH]]; [by exists ""|].
  simpl. case_decide.
  - exists (String x dots). rewrite sapp_cons. by f_equal.
  - by exists "".
Qed.

Lemma split_cons (sep : ascii) (s : string) :
  ∃ h t, split sep s = h :: t.
Proof.
  induction s as [|x s (h & t & IH)]; simpl; [by eauto|].
  case_decide; [by eauto|]. rewrite IH. eauto.
Qed.

Lemma join_split (sep : ascii) (s : string) :
  join (String sep "") (split sep s) = s.
Proof.
  induction s as [|x s IH]; [done|]. simpl.
  destruct (split_cons sep s) as (h & t & E). rewrite E in *.
  case_decide as Hx.
  - subst x. change (String sep (join (String sep "") (h :: t)) = String sep s).
    by rewrite IH.
  - destruct t as [|h' t].
    + simpl in *. by rewrite IH.
    + change (String x (h +:+ String sep "" +:+ join (String sep "") (h' :: t))
              = String x s).
      f_equal. exact IH.
Qed.


(** The suffixes, concatenated, are the end of what [split] joined. *)
Lemma join_suffixes (h : string) (t : list string) :
  join "." (h :: t) = h +:+ join "" ((λ suffix, "." +:+ suffix) <$> t).
Proof.
  revert h. induction t as [|h' t IH]; intros h.
  { simpl. by rewrite sapp_nil_r. }
  change (h +:+ "." +:+ join "." (h' :: t)
          = h +:+ join "" (("." +:+ h') :: ((λ suffix, "." +:+ suffix) <$> t))).
  f_equal. rewrite IH.
  destruct t as [|h'' t]; simpl.
  - by rewrite sapp_nil_r.
  - by rewrite !sapp_assoc.
Qed.

(** The name of a path ends with its suffixes. *)
Lemma name_suffixes (p : PurePath.t) :
  ∃ base_name,
    PurePath.name p = base_name +:+ join "" (PurePath.suffixes p).
Proof.
  unfold PurePath.suffixes.
  destruct (endswith "." (PurePath.name p)).
  { exists (PurePath.name p). simpl. by rewrite sapp_nil_r. }
  destruct (lstrip_char_app "." (PurePath.name p)) as [dots Hd].
  destruct (split_cons "." (lstrip_char "." (PurePath.name p))) as (h & t & E).
  rewrite E. simpl. rewrite drop_0.
  exists (dots +:+ h). rewrite sapp_assoc, <- join_suffixes, <- E.
  change "."%string with (String "."%char "").
  by rewrite join_split.
Qed.




End PathFacts.

(** ** The extractor's [main] *)

Module ExtractorFacts.
Import extract_contracts PyStr PyStrFacts PathFacts.

(** The new name is the old one with the count before the suffixes. *)
Lemma counted_name_spec (p : PurePath.t) (n : nat) :
  ∃ base_name,
    PurePath.name p = base_name +:+ join "" (PurePath.suffixes p) ∧
    counted_name p n
      = base_name +:+ "_" +:+ of_nat_N (N.of_nat n)
        +:+ join "" (PurePath.suffixes p).
Proof.
  destruct (name_suffixes p) as [base_name Hname]. exists base_name.
  split; [done|]. unfold counted_name.
  destruct (truthy (join "" (PurePath.suffixes p))) eqn:E.
  - by rewrite Hname, drop_last_app.
  - apply truthy_false in E. rewrite E in *.
    rewrite sapp_nil_r in Hname. by rewrite Hname.
Qed.


End ExtractorFacts.

(** *** The index pattern *)

Module IndexFacts.
Import extract_contracts Assembler PyStr PyStrFacts.

Lemma strip_prefix_app (p s : string) : strip_prefix p (p +:+ s) = Some s.
Proof.
  induction p as [|c p IH]; [done|]. rewrite sapp_cons. simpl.
  by rewrite decide_True.
Qed.

Lemma strip_prefix_inv (p s r : string) :
  strip_prefix p s = Some r → s = p +:+ r.
Proof.
  revert s. induction p as [|c p IH]; intros s; simpl.
  { by intros [= ->]. }
  destruct s as [|x s]; [done|]. case_decide; [|done]. subst x.
  intros H. rewrite sapp_cons. f_equal. by apply IH.
Qed.

Lemma endswith_app (p a : string) : endswith p (a +:+ p) = true.
Proof.
  induction a as [|c a IH].
  - rewrite sapp_nil_l. destruct p; simpl; [done|]. by rewrite decide_True.
  - rewrite sapp_cons. simpl. by case_decide.
Qed.

Lemma endswith_inv (p s : string) :
  endswith p s = true → ∃ a, s = a +:+ p.
Proof.
  induction s as [|c s IH]; simpl.
  - case_decide; [|done]. subst p. by exists "".
  - case_decide as H; [subst p; by exists ""|].
    intros [a ->]%IH. by exists (String c a).
Qed.

Lemma endswith_LF_digits (ds : string) :
  all is_digit ds = true → endswith LF ds = false.
Proof.
  induction ds as [|c ds IH]; simpl; [done|].
  intros [Hc Hds]%andb_true_iff. case_decide as H; [|by apply IH].
  injection H as <- _. done.
Qed.

Lemma span_not_underscore_inv (s mid rest : string) :
  span_not_underscore s = (mid, rest) →
  s = mid +:+ rest ∧ contains "_" mid = false ∧
  (rest = "" ∨ ∃ r, rest = "_" +:+ r).
Proof.
  revert mid rest. induction s as [|c s IH]; intros mid rest; simpl.
  { intros [= <- <-]. auto. }
  case_decide as Hc.
  - intros [= <- <-]. subst c. split_and!; [done..|]. right. by exists s.
  - destruct (span_not_underscore s) as [mid' rest'] eqn:E.
    intros [= <- <-]. destruct (IH _ _ eq_refl) as (-> & Hm & Hr).
    split_and!; [done| |done]. simpl. by rewrite decide_False.
Qed.

Lemma span_not_underscore_app (mid r : string) :
  contains "_" mid = false →
  span_not_underscore (mid +:+ "_" +:+ r) = (mid, "_" +:+ r).
Proof.
  induction mid as [|c mid IH]; [done|]. intros Hmid. simpl in Hmid.
  case_decide as Hc; [done|]. rewrite sapp_cons. cbn [span_not_underscore].
  rewrite decide_False by done. by rewrite IH.
Qed.

(** The pattern [Repeater1_[^_]+_(\d+)$], matched from the start: the key is
    the prefix, a non-empty middle without underscore, an underscore, the
    non-empty digits of group 1, and then the end or one line feed. *)
Lemma INDEX_PATTERN_match_spec (element_id digits : string) :
  INDEX_PATTERN_match element_id = Some digits ↔
  ∃ middle ending,
    element_id = "Repeater1_" +:+ middle +:+ "_" +:+ digits +:+ ending ∧
    truthy middle = true ∧ contains "_" middle = false ∧
    truthy digits = true ∧ all is_digit digits = true ∧
    (ending = "" ∨ ending = LF).
Proof.
  unfold INDEX_PATTERN_match. rewrite bind_Some. split.
  - intros (after & Hp & H). apply strip_prefix_inv in Hp as ->.
    destruct (span_not_underscore after) as [middle rest] eqn:Hs.
    apply span_not_underscore_inv in Hs as (-> & Hm & Hr).
    destruct (truthy middle) eqn:Hmid; cbn [negb] in H; [|done].
    apply bind_Some in H as (au & Hu & H).
    apply strip_prefix_inv in Hu as ->.
    destruct (endswith LF au) eqn:He.
    + apply endswith_inv in He as [ds ->].
      change 1%nat with (String.length LF) in H.
      rewrite PathFacts.drop_last_app in H.
      destruct (truthy ds) eqn:Hds; cbn [andb] in H; [|done].
      destruct (all is_digit ds) eqn:Hall; [|done].
      injection H as <-. exists middle, LF. split_and!; try done. by right.
    + destruct (truthy au) eqn:Hds; cbn [andb] in H; [|done].
      destruct (all is_digit au) eqn:Hall; [|done].
      injection H as <-. exists middle, "". rewrite sapp_nil_r.
      split_and!; try done. by left.
  - intros (middle & ending & -> & Hmid & Hm & Hds & Hall & Hend).
    eexists. split; [apply strip_prefix_app|].
    rewrite span_not_underscore_app by done. rewrite Hmid. cbn [negb].
    apply bind_Some. eexists. split; [apply (strip_prefix_app "_")|].
    destruct Hend as [-> | ->].
    + rewrite sapp_nil_r, endswith_LF_digits by done. by rewrite Hds, Hall.
    + rewrite endswith_app. change 1%nat with (String.length LF).
      rewrite PathFacts.drop_last_app. by rewrite Hds, Hall.
Qed.

(** Decimal numerals. *)
Lemma uint_digits (d : Decimal.uint) :
  all is_digit (NilEmpty.string_of_uint d) = true.
Proof. induction d; simpl; done. Qed.

Lemma of_nat_N_digits (n : N) :
  truthy (of_nat_N n) = true ∧ all is_digit (of_nat_N n) = true.
Proof.
  split; [|apply uint_digits]. unfold of_nat_N.
  destruct n as [|p]; [done|]. simpl.
  pose proof (DecimalPos.Unsigned.to_uint_nonnil p) as H.
  by destruct (Pos.to_uint p).
Qed.

Lemma to_N_of_nat_N (n : N) : to_N (of_nat_N n) = Some n.
Proof.
  unfold to_N. rewrite (proj1 (of_nat_N_digits n)).
  unfold of_nat_N. rewrite NilEmpty.usu. simpl.
  by rewrite DecimalN.Unsigned.of_to.
Qed.

(** The key that holds the contract id of row [idx] has index [idx]. *)
Lemma row_index_contract_id_key (idx : N) :
  row_index (contract_id_key idx) = Some idx.
Proof.
  unfold row_index.
  destruct (of_nat_N_digits idx) as [Hne Hall].
  assert (INDEX_PATTERN_match (contract_id_key idx) = Some (of_nat_N idx)) as ->.
  { apply INDEX_PATTERN_match_spec. exists "lblCustomerId", "".
    split_and!; try done; [|by left].
    unfold contract_id_key. by rewrite sapp_nil_r. }
  simpl. apply to_N_of_nat_N.
Qed.

(** *** The indices of a mapping *)

Lemma uint_of_string_digits (s : string) :
  all is_digit s = true → is_Some (NilEmpty.uint_of_string s).
Proof.
  induction s as [|c s IH]; [by eexists|]. cbn [all].
  intros [Hc Hs]%andb_true_iff. destruct (IH Hs) as [d Hd].
  cbn [NilEmpty.uint_of_string]. rewrite Hd.
  destruct c as [[] [] [] [] [] [] [] []]; try done; by eexists.
Qed.

(** [int] on the digits of a match: the number they denote, unless they are
    too many. *)
Lemma int_digits (max_str_digits : nat) (digits : string) :
  truthy digits = true → all is_digit digits = true →
  ∃ idx, to_N digits = Some idx ∧
         int max_str_digits digits
           = if exceeds_max_str_digits max_str_digits digits
             then Raise ValueError else Ok idx.
Proof.
  intros Hne Hall. destruct (uint_of_string_digits digits Hall) as [d Hd].
  exists (N.of_uint d). unfold int, to_N. rewrite Hne, Hd. simpl.
  by destruct (exceeds_max_str_digits _ _).
Qed.

Lemma int_matched (max_str_digits : nat) (element_id digits : string) :
  INDEX_PATTERN_match element_id = Some digits →
  ∃ idx, row_index element_id = Some idx ∧
         int max_str_digits digits
           = if exceeds_max_str_digits max_str_digits digits
             then Raise ValueError else Ok idx.
Proof.
  intros Hm. pose proof Hm as Hspec.
  apply INDEX_PATTERN_match_spec in Hspec
    as (_ & _ & _ & _ & _ & Hne & Hall & _).
  destruct (int_digits max_str_digits digits Hne Hall) as (idx & Hidx & Hint).
  exists idx. split; [|done]. unfold row_index. by rewrite Hm.
Qed.

Section IndexSet.

Variable max_str_digits : nat.

Local Abbreviation accepted := (accepted max_str_digits).

(** One step of the set comprehension. *)
Local Abbreviation step :=
  (λ (acc : result (gset N)) (element_id : string),
     indices ← acc;
     match INDEX_PATTERN_match element_id with
     | Some digits =>
         idx ← PyStr.int max_str_digits digits;
         Ok ({[ idx ]} ∪ indices)
     | None => Ok indices
     end).

Lemma index_fold_raise (e : exn) (keys : list string) :
  foldl step (Raise e) keys = Raise e.
Proof. induction keys as [|k keys IH]; [done|]. apply IH. Qed.

Lemma index_fold (keys : list string) (indices : gset N) :
  (Forall accepted keys ∧
   foldl step (Ok indices) keys
     = Ok (list_to_set (omap row_index keys) ∪ indices)) ∨
  (¬ Forall accepted keys ∧ foldl step (Ok indices) keys = Raise ValueError).
Proof.
  revert indices. induction keys as [|k keys IH]; intros indices.
  { left. split; [constructor|]. simpl. f_equal. set_solver. }
  cbn [foldl omap list_omap].
  destruct (INDEX_PATTERN_match k) as [digits|] eqn:Hm.
  - destruct (int_matched max_str_digits k digits Hm) as (idx & Hidx & Hint).
    rewrite Hidx. cbn [mbind result_bind]. rewrite Hint.
    destruct (exceeds_max_str_digits max_str_digits digits) eqn:Hex;
      cbn [mbind result_bind].
    + right. split; [|apply index_fold_raise].
      intros [Hk _]%Forall_cons. specialize (Hk digits Hm). congruence.
    + assert (accepted k) as Hk.
      { intros digits' Hm'. congruence. }
      destruct (IH ({[ idx ]} ∪ indices)) as [[Hall ->] | [Hall ->]].
      * left. split; [by constructor|]. f_equal. set_solver.
      * right. split; [|done]. by intros [_ ?]%Forall_cons.
  - assert (row_index k = None) as ->.
    { unfold row_index. by rewrite Hm. }
    cbn [mbind result_bind].
    assert (accepted k) as Hk.
    { intros digits' Hm'. congruence. }
    destruct (IH indices) as [[Hall ->] | [Hall ->]].
    + left. split; [by constructor|]. done.
    + right. split; [|done]. by intros [_ ?]%Forall_cons.
Qed.

Lemma within_limit_accepted (raw_values : gmap string string) :
  within_limit max_str_digits raw_values ↔
  Forall accepted (elements (dom raw_values)).
Proof.
  rewrite Forall_forall. unfold within_limit, Assembler.accepted. split.
  - intros H k Hk digits. apply H. by apply elem_of_dom, elem_of_elements.
  - intros H k digits Hk. apply H. by apply elem_of_elements, elem_of_dom.
Qed.

(** The set comprehension returns the row numbers of the keys, or raises
    [ValueError] because of a numeral that is too long. *)
Lemma index_set_spec (raw_values : gmap string string) :
  (within_limit max_str_digits raw_values ∧
   index_set max_str_digits raw_values
     = Ok (set_omap row_index (dom raw_values))) ∨
  (¬ within_limit max_str_digits raw_values ∧
   index_set max_str_digits raw_values = Raise ValueError).
Proof.
  rewrite within_limit_accepted. unfold index_set.
  destruct (index_fold (elements (dom raw_values)) ∅) as [[H ->] | [H ->]].
  - left. split; [done|]. f_equal. unfold set_omap. set_solver.
  - by right.
Qed.

Lemma index_set_within (raw_values : gmap string string) :
  within_limit max_str_digits raw_values →
  index_set max_str_digits raw_values
    = Ok (set_omap row_index (dom raw_values)).
Proof. intros H. by destruct (index_set_spec raw_values) as [[_ ?] | [? _]]. Qed.

Lemma index_set_Ok (raw_values : gmap string string) (indices : gset N) :
  index_set max_str_digits raw_values = Ok indices →
  within_limit max_str_digits raw_values ∧
  indices = set_omap row_index (dom raw_values).
Proof.
  intros H. destruct (index_set_spec raw_values) as [[? E] | [_ E]];
    rewrite E in H; [|done].
  by injection H as <-.
Qed.

Lemma elem_of_row_indices (raw_values : gmap string string) (idx : N) :
  idx ∈ (set_omap row_index (dom raw_values) : gset N) ↔
  ∃ element_id, is_Some (raw_values !! element_id) ∧
                row_index element_id = Some idx.
Proof. rewrite elem_of_set_omap. by setoid_rewrite elem_of_dom. Qed.

Section Enumeration.

Variable enumerate : gset N → list N.

(** The assembler returns the records of the kept rows, or raises
    [ValueError] because of a numeral that is too long. *)
Lemma contracts_of_spec (raw_values : gmap string string) :
  (within_limit max_str_digits raw_values ∧
   contracts_of max_str_digits enumerate raw_values
     = Ok (assemble raw_values
             (sorted (enumerate (set_omap row_index (dom raw_values)))))) ∨
  (¬ within_limit max_str_digits raw_values ∧
   contracts_of max_str_digits enumerate raw_values = Raise ValueError).
Proof.
  unfold contracts_of.
  destruct (index_set_spec raw_values) as [[H ->] | [H ->]]; [left|right]; done.
Qed.

End Enumeration.

(** The records do not depend on the order of iteration over the set. *)
Lemma contracts_of_any_order (enumerate1 enumerate2 : gset N → list N)
    (raw_values : gmap string string) :
  (∀ s, enumerate1 s ≡ₚ elements s) → (∀ s, enumerate2 s ≡ₚ elements s) →
  contracts_of max_str_digits enumerate1 raw_values
  = contracts_of max_str_digits enumerate2 raw_values.
Proof.
  intros H1 H2. unfold contracts_of.
  destruct (index_set max_str_digits raw_values) as [indices|e]; [|done].
  simpl.
  by rewrite (AssemblerFacts.sorted_enumerate enumerate1),
             (AssemblerFacts.sorted_enumerate enumerate2).
Qed.

(** [parse_contracts] runs the handlers on the events of the tokenizer,
    which never raise, and then ends with the exception of the tokenizer or
    assembles the records. *)
Lemma parse_contracts_feed (tokenize : string → list event * option exn)
    (enumerate : gset N → list N) (html_source : string) :
  ∃ parser,
    ContractHTMLParser.feed ContractHTMLParser.init (tokenize html_source).1
      = Ok parser ∧
    parse_contracts max_str_digits tokenize enumerate html_source
      = match (tokenize html_source).2 with
        | Some e => Raise e
        | None => contracts_of max_str_digits enumerate
                    (ContractHTMLParser.values parser)
        end.
Proof.
  unfold parse_contracts.
  destruct (tokenize html_source) as [events failure]. simpl.
  destruct (ScannerFacts.feed_init_total events) as (parser & Hf & _).
  exists parser. split; [done|]. by rewrite Hf.
Qed.

End IndexSet.

End IndexFacts.
(** *** The claims about the assembler *)

Section AssemblerClaims.
Import extract_contracts Assembler PyStr.

(** C1, as the code has it: every record [parse_contracts] returns has
    exactly the ten keys of [FIELD_ID_MAP], in its order and each once,
    whichever identifiers the markup held. *)
Theorem record_has_the_ten_fields (max_str_digits : nat)
    (tokenize : string → list event * option exn)
    (enumerate : gset N → list N) (html_source : string)
    (contracts : list contract) (record : contract) :
  parse_contracts max_str_digits tokenize enumerate html_source = Ok contracts →
  record ∈ contracts →
  record.*1 = [ "contract_id"; "contract_description"; "contractor";
                "implementing_office"; "source_of_funds";
                "contract_cost_php"; "contract_effectivity_date";
                "contract_expiry_date"; "status";
                "percent_accomplishment" ] ∧
  length record = 10%nat ∧
  NoDup record.*1.
Proof.
  intros Hp Hin.
  destruct (IndexFacts.parse_contracts_feed max_str_digits tokenize enumerate
              html_source) as (parser & _ & Heq).
  rewrite Hp in Heq. destruct ((tokenize html_source).2); [done|].
  destruct (IndexFacts.contracts_of_spec max_str_digits enumerate
              (ContractHTMLParser.values parser)) as [[_ E] | [_ E]];
    rewrite E in Heq; [|done].
  injection Heq as ->. rewrite AssemblerFacts.assemble_filter in Hin.
  apply list_elem_of_fmap in Hin as (idx & -> & _).
  pose proof (AssemblerFacts.build_record_keys
                (ContractHTMLParser.values parser) idx) as Hk.
  split; [exact Hk|]. split.
  - rewrite <- (length_fmap fst), Hk. reflexivity.
  - rewrite Hk. apply AssemblerFacts.field_names_NoDup.
Qed.

(** The record of the example: row 0 with the contract id [C-1]. *)
Lemma record_has_the_ten_fields_witness :
  parse_contracts 4300 two_rows_tokenize elements two_rows_html = Ok [row_C1] ∧
  row_C1.*1 = field_names ∧
  length row_C1 = 10%nat ∧
  NoDup row_C1.*1.
Proof.
  assert (parse_contracts 4300 two_rows_tokenize elements two_rows_html
          = Ok [row_C1]) as Hrun by (by vm_compute).
  split; [exact Hrun|].
  apply (record_has_the_ten_fields 4300 two_rows_tokenize elements
           two_rows_html [row_C1] row_C1 Hrun).
  left.
Defined.

(** The record of the example has ten keys, not nine. *)
Lemma record_with_nine_keys_counterexample :
  ∃ contracts record,
    parse_contracts 4300 two_rows_tokenize elements two_rows_html
      = Ok contracts ∧
    record ∈ contracts ∧
    length record.*1 = 10%nat ∧ length record.*1 ≠ 9%nat.
Proof.
  exists [row_C1], row_C1. split; [by vm_compute|].
  split; [left|]. split; [reflexivity|]. simpl. lia.
Qed.

Section Order.

Variable max_str_digits : nat.
Variable enumerate : gset N → list N.
Hypothesis enumerate_perm : ∀ s, enumerate s ≡ₚ elements s.

(** C5, as the code has it.  For an accumulated mapping none of whose keys
    holds a row numeral that [int] refuses: the set comprehension returns
    the integers that [INDEX_PATTERN] captures from the keys; sorted, they
    are the indices, each once and ascending; the records returned are those
    of the kept indices, in their ascending order; an index is kept if and
    only if the text accumulated under [Repeater1_lblCustomerId_<idx>] is
    present and not empty, and that text is the [contract_id] field of its
    record.  For any other mapping the assembler raises [ValueError] and
    returns no record.  For the markup with the span of row 0 holding [C-1]
    and the span of row 1 empty, the result is the one record of row 0. *)
Theorem records_ascending_and_kept_iff_contract_id
    (raw_values : gmap string string) :
  (within_limit max_str_digits raw_values →
   ∃ index_set,
     extract_contracts.index_set max_str_digits raw_values = Ok index_set ∧
     let indices := sorted (enumerate index_set) in
     let kept :=
       filter (λ idx, truthy_opt (raw_values !! contract_id_key idx) = true)
         indices in
     StronglySorted N.lt indices ∧
     (∀ idx, idx ∈ indices ↔
             ∃ element_id, is_Some (raw_values !! element_id) ∧
                           row_index element_id = Some idx) ∧
     contracts_of max_str_digits enumerate raw_values
       = Ok (build_record raw_values <$> kept) ∧
     StronglySorted N.lt kept ∧
     (∀ idx, idx ∈ kept ↔
             truthy_opt (raw_values !! contract_id_key idx) = true) ∧
     (∀ idx, mjoin (odict_get "contract_id" (build_record raw_values idx))
             = raw_values !! contract_id_key idx)) ∧
  (¬ within_limit max_str_digits raw_values →
   contracts_of max_str_digits enumerate raw_values = Raise ValueError) ∧
  (∀ tokenize, tokenize two_rows_html = (two_rows_events, None) →
     parse_contracts max_str_digits tokenize enumerate two_rows_html
       = Ok [row_C1] ∧
     row_C1 = build_record {[ contract_id_key 0 := "C-1";
                              contract_id_key 1 := "" ]} 0).
Proof.
  split_and!.
  - intros Hlimit. eexists.
    split; [by apply IndexFacts.index_set_within|]. intros indices kept.
    assert (StronglySorted N.lt indices) as Hsorted
      by (by apply AssemblerFacts.sorted_enumerate_ascending).
    assert (∀ idx, idx ∈ indices ↔
                   ∃ element_id, is_Some (raw_values !! element_id) ∧
                                 row_index element_id = Some idx) as Hindices.
    { intros idx. unfold indices.
      rewrite AssemblerFacts.elem_of_sorted_enumerate by done.
      apply IndexFacts.elem_of_row_indices. }
    split_and!.
    + done.
    + done.
    + destruct (IndexFacts.contracts_of_spec max_str_digits enumerate
                  raw_values) as [[_ ->] | [? _]]; [|done].
      f_equal. apply AssemblerFacts.assemble_filter.
    + by apply ListFacts.StronglySorted_filter.
    + intros idx. unfold kept. rewrite list_elem_of_filter.
      split; [by intros [? _]|]. intros Hid. split; [done|].
      apply Hindices. exists (contract_id_key idx). split.
      * by destruct (raw_values !! contract_id_key idx).
      * apply IndexFacts.row_index_contract_id_key.
    + apply AssemblerFacts.build_record_contract_id.
  - intros Hlimit.
    by destruct (IndexFacts.contracts_of_spec max_str_digits enumerate
                   raw_values) as [[? _] | [_ ->]].
  - intros tokenize Htok. split; [|by vm_compute].
    destruct (IndexFacts.parse_contracts_feed max_str_digits tokenize
                enumerate two_rows_html) as (parser & Hfeed & ->).
    rewrite Htok in Hfeed |- *. cbn [fst snd] in Hfeed |- *.
    vm_compute in Hfeed. injection Hfeed as <-.
    cbn [ContractHTMLParser.values].
    set (raw := ({[ "Repeater1_lblCustomerId_0" := "C-1";
                    "Repeater1_lblCustomerId_1" := "" ]}
                 : gmap string string)).
    destruct (IndexFacts.contracts_of_spec max_str_digits enumerate raw)
      as [[_ E] | [Hn _]].
    + change (contracts_of max_str_digits enumerate raw = Ok [row_C1]).
      rewrite E. f_equal.
      rewrite AssemblerFacts.sorted_enumerate by done. by vm_compute.
    + exfalso. apply Hn. intros element_id digits Hin Hm.
      apply bool_decide_eq_false_2. intros (Hlong & _).
      assert (element_id = "Repeater1_lblCustomerId_0"
              ∨ element_id = "Repeater1_lblCustomerId_1") as [-> | ->].
      { destruct Hin as [v Hv]. unfold raw in Hv.
        apply lookup_insert_Some in Hv as [[<- _] | [_ Hv]]; [by left|].
        apply lookup_singleton_Some in Hv as [<- _]. by right. }
      * vm_compute in Hm. injection Hm as <-. simpl in Hlong. lia.
      * vm_compute in Hm. injection Hm as <-. simpl in Hlong. lia.
Qed.

End Order.

Lemma records_ascending_and_kept_iff_contract_id_witness :
  contracts_of 4300 elements
    {[ contract_id_key 3 := "C-3"; contract_id_key 1 := "";
       "Repeater1_Label7_2" := "Ongoing"; contract_id_key 0 := "C-0" ]}
  = Ok [ build_record {[ contract_id_key 3 := "C-3"; contract_id_key 1 := "";
                         "Repeater1_Label7_2" := "Ongoing";
                         contract_id_key 0 := "C-0" ]} 0;
         build_record {[ contract_id_key 3 := "C-3"; contract_id_key 1 := "";
                         "Repeater1_Label7_2" := "Ongoing";
                         contract_id_key 0 := "C-0" ]} 3 ].
Proof.
  destruct (records_ascending_and_kept_iff_contract_id 4300 elements
              (λ s, reflexivity (elements s))
              {[ contract_id_key 3 := "C-3"; contract_id_key 1 := "";
                 "Repeater1_Label7_2" := "Ongoing";
                 contract_id_key 0 := "C-0" ]})
    as (Hok & _).
  destruct Hok as (index_set & _ & _ & _ & H & _).
  { eapply proj1, IndexFacts.index_set_Ok. by vm_compute. }
  rewrite H. by vm_compute.
Defined.

(** A mapping with the contract id [C-1] of row 0 and a key whose row
    numeral has 4301 digits: under the default limit of 4300 digits the
    assembler raises [ValueError], and the record of row 0 is not returned
    although its contract id is present and not empty. *)
Lemma long_numeral_drops_all_records_counterexample :
  long_numeral_values !! contract_id_key 0 = Some "C-1" ∧
  INDEX_PATTERN_match long_numeral_key = Some (PyStr.repeat "1" 4301) ∧
  contracts_of 4300 elements long_numeral_values = Raise ValueError.
Proof. split_and!; vm_compute; reflexivity. Qed.

End AssemblerClaims.

(** *** The claims about the extractor's [main] *)

Section ExtractorClaims.
Import extract_contracts Extractor Assembler PyStr.

Variable max_str_digits : nat.
Variable tokenize : string → list event * option exn.
Variable float_repr : spec_float → string.
Context {W : Type}.
Variable os : OS.t W.


(** C8. The iteration order of a set is the only thing two runs of the
    interpreter may differ in.  Whatever it is in each run, the same markup
    and indent give the same JSON text, and the same arguments and world give
    the same outcome. *)
Theorem extractor_is_deterministic (enumerate1 enumerate2 : gset N → list N) :
  (∀ s, enumerate1 s ≡ₚ elements s) →
  (∀ s, enumerate2 s ≡ₚ elements s) →
  (∀ indent html_source,
     serialized max_str_digits tokenize enumerate1 float_repr indent html_source
     = serialized max_str_digits tokenize enumerate2 float_repr indent
         html_source) ∧
  (∀ a w,
     main max_str_digits tokenize enumerate1 float_repr os a w
     = main max_str_digits tokenize enumerate2 float_repr os a w).
Proof.
  intros H1 H2.
  assert (∀ html_source,
            parse_contracts max_str_digits tokenize enumerate1 html_source
            = parse_contracts max_str_digits tokenize enumerate2 html_source)
    as Hp.
  { intros html_source. unfold parse_contracts.
    destruct (tokenize html_source) as [events failure].
    destruct (ContractHTMLParser.feed _ _) as [parser|e]; simpl; [|done].
    destruct failure; [done|].
    by apply IndexFacts.contracts_of_any_order. }
  split.
  - intros indent html_source. unfold serialized. by rewrite Hp.
  - intros a w. unfold main.
    destruct (negb _); [done|].
    destruct (OS.read_text _ _ _) as [html_source|e]; [|done].
    by rewrite Hp.
Qed.

End ExtractorClaims.



(** Two interpreters that iterate over a set in opposite orders. *)
Lemma extractor_is_deterministic_witness :
  extract_contracts.main 4300 Assembler.two_rows_tokenize elements (λ _, "")
    Posix.os
    {| extract_contracts.html_path := "x.html";
       extract_contracts.output := None;
       extract_contracts.indent := 2 |}
    Extractor.two_rows_world
  = extract_contracts.main 4300 Assembler.two_rows_tokenize
      (λ s, reverse (elements s)) (λ _, "") Posix.os
      {| extract_contracts.html_path := "x.html";
         extract_contracts.output := None;
         extract_contracts.indent := 2 |}
      Extractor.two_rows_world.
Proof.
  apply (extractor_is_deterministic 4300 Assembler.two_rows_tokenize
           (λ _, "") Posix.os elements (λ s, reverse (elements s))).
  - intros s. reflexivity.
  - intros s. apply reverse_Permutation.
Defined.


(** ** The JSON combiner *)

Module CombinerFacts.
Import combine_json Combiner.

(** *** The order of paths *)

Lemma parts_le_refl (l : list string) : PurePath.parts_le l l.
Proof. induction l as [|a l IH]; simpl; [done|]. by rewrite decide_True. Qed.

Lemma parts_le_total (l1 l2 : list string) :
  PurePath.parts_le l1 l2 ∨ PurePath.parts_le l2 l1.
Proof.
  revert l2. induction l1 as [|a l1 IH]; intros [|b l2]; simpl; auto.
  destruct (decide (a = b)) as [->|Hne].
  - rewrite decide_True by done. apply IH.
  - rewrite (decide_False (P := b = a)) by congruence.
    destruct (total String.le a b); [left|right]; by apply bool_decide_pack.
Qed.

Lemma parts_le_trans (l1 l2 l3 : list string) :
  PurePath.parts_le l1 l2 → PurePath.parts_le l2 l3 → PurePath.parts_le l1 l3.
Proof.
  revert l2 l3. induction l1 as [|a l1 IH]; intros [|b l2] [|c l3]; simpl;
    try done.
  destruct (decide (a = b)) as [->|Hab], (decide (b = c)) as [->|Hbc].
  - apply IH.
  - done.
  - rewrite decide_False by done. done.
  - intros H1%bool_decide_unpack H2%bool_decide_unpack.
    destruct (decide (a = c)) as [->|Hac].
    + destruct Hab. by apply (anti_symm String.le).
    + apply bool_decide_pack. by etrans.
Qed.

Global Instance path_le_total : Total PurePath.le.
Proof. intros p q. apply parts_le_total. Qed.

Global Instance path_le_trans : Transitive PurePath.le.
Proof. intros p q r. apply parts_le_trans. Qed.

Lemma parts_make_child (d : PurePath.t) (entry : string) :
  PurePath.parts (PurePath.make_child d entry) = PurePath.parts d ++ [entry].
Proof. unfold PurePath.parts, PurePath.is_absolute. simpl. by case_match. Qed.

Lemma name_make_child (d : PurePath.t) (entry : string) :
  PurePath.name (PurePath.make_child d entry) = entry.
Proof. unfold PurePath.name. simpl. apply last_last. Qed.

(** Children of one directory are ordered as their names are. *)
Lemma le_make_child (d : PurePath.t) (n1 n2 : string) :
  PurePath.le (PurePath.make_child d n1) (PurePath.make_child d n2) ↔
  (n1 ≤ n2)%string.
Proof.
  unfold PurePath.le. rewrite !parts_make_child.
  induction (PurePath.parts d) as [|x l IH]; simpl.
  - case_decide as H; [subst; split; [reflexivity|done]|].
    by rewrite bool_decide_spec.
  - by rewrite decide_True.
Qed.

Section Candidates.

Variable resolve : PurePath.t → PurePath.t.
Variable scandir : PurePath.t → option (list string).

Lemma elem_of_collect (directory output_path path : PurePath.t) :
  path ∈ collect_json_files resolve scandir directory output_path ↔
  resolve path ≠ resolve output_path ∧
  ∃ entry, path = PurePath.make_child directory entry ∧
           PyStr.endswith ".json" entry = true ∧
           entry ∈ default [] (scandir directory).
Proof.
  unfold collect_json_files, glob_json.
  rewrite list_elem_of_filter, merge_sort_Permutation, list_elem_of_fmap.
  by setoid_rewrite list_elem_of_filter.
Qed.

Lemma collect_sorted (directory output_path : PurePath.t) :
  StronglySorted PurePath.le
    (collect_json_files resolve scandir directory output_path).
Proof.
  unfold collect_json_files.
  apply ListFacts.StronglySorted_filter, StronglySorted_merge_sort; apply _.
Qed.

(** The candidates are in the lexicographic order of their names. *)
Lemma collect_sorted_by_name (directory output_path : PurePath.t) :
  StronglySorted String.le
    (PurePath.name
       <$> collect_json_files resolve scandir directory output_path).
Proof.
  eapply ListFacts.StronglySorted_fmap_elem_of; [|apply collect_sorted].
  intros p q (_ & n1 & -> & _)%elem_of_collect (_ & n2 & -> & _)%elem_of_collect.
  rewrite !name_make_child. by rewrite le_make_child.
Qed.

(** Every matching entry other than the output file is a candidate once per
    occurrence in the listing. *)
Lemma collect_Permutation (directory output_path : PurePath.t) :
  collect_json_files resolve scandir directory output_path
    ≡ₚ filter (λ path, resolve path ≠ resolve output_path)
         (glob_json scandir directory).
Proof.
  unfold collect_json_files. by rewrite merge_sort_Permutation.
Qed.

End Candidates.

(** *** The loop of [main] *)

Section Loop.

Variable json_load : string → result Json.value.
Variable float_repr : spec_float → string.
Context {W : Type}.
Variable os : OS.t W.

Lemma extend_all_ok (w : W) (json_files : list PurePath.t)
    (arrays : list (list Json.value)) (combined : list Json.value) :
  Forall2 (λ path items, load_json_as_list json_load os w path = Ok items)
    json_files arrays →
  extend_all json_load os w combined json_files
    = Ok (combined ++ concat arrays).
Proof.
  intros H. revert combined.
  induction H as [|path items json_files arrays Hl _ IH]; intros combined;
    simpl.
  { by rewrite app_nil_r. }
  rewrite Hl. simpl. by rewrite IH, <- app_assoc.
Qed.

Lemma extend_all_raise (w : W) (loaded : list PurePath.t)
    (bad : PurePath.t) (rest : list PurePath.t) (e : exn)
    (combined : list Json.value) :
  Forall (λ path, ∃ items,
            load_json_as_list json_load os w path = Ok items) loaded →
  load_json_as_list json_load os w bad = Raise e →
  extend_all json_load os w combined (loaded ++ bad :: rest) = Raise e.
Proof.
  intros H Hbad. revert combined.
  induction H as [|path loaded [items Hl] _ IH]; intros combined; simpl.
  { by rewrite Hbad. }
  rewrite Hl. simpl. apply IH.
Qed.

Lemma load_holds (w : W) (path : PurePath.t) (data : Json.value) :
  holds json_load os w path data →
  load_json_as_list json_load os w path
    = Ok (match data with Json.PyList items => items | _ => [data] end).
Proof.
  intros (text & Hfile & Hload). unfold load_json_as_list.
  rewrite Hfile. simpl. rewrite Hload. by destruct data.
Qed.

(** Only [JSONDecodeError] is replaced by the error that names the file. *)
Lemma load_fails (w : W) (path : PurePath.t) (e : exn) :
  fails json_load os w path e →
  load_json_as_list json_load os w path
    = Raise (match e with
             | JSONDecodeError =>
                 RuntimeError ("Failed to parse " +:+ PurePath.str path)
             | _ => e
             end).
Proof.
  unfold fails, load_json_as_list. intros ->. by destruct e.
Qed.


(** The loop fails when some file does. *)
Lemma extend_all_some_failure (w : W) (json_files : list PurePath.t)
    (combined : list Json.value) (path : PurePath.t) (e : exn) :
  path ∈ json_files → fails json_load os w path e →
  ∃ e1, extend_all json_load os w combined json_files = Raise e1.
Proof.
  intros Hin Hfail. revert combined.
  induction json_files as [|other rest IH]; intros combined.
  { by apply elem_of_nil in Hin. }
  simpl. apply elem_of_cons in Hin as [<- | Hin].
  - rewrite (load_fails _ _ _ Hfail). by eexists.
  - destruct (load_json_as_list json_load os w other); simpl; [|by eexists].
    by apply IH.
Qed.

(** [main] after the loop. *)
Lemma main_loaded (a : args) (w : W) (combined : list Json.value) :
  is_dir (OS.scandir os w) (OS.resolve os w (directory a)) = true →
  extend_all json_load os w []
    (candidates (OS.resolve os w) (OS.scandir os w) a) = Ok combined →
  main json_load float_repr os a w
    = finish float_repr os w (output_path_of (OS.resolve os w) a)
        (length (candidates (OS.resolve os w) (OS.scandir os w) a)) combined.
Proof.
  intros Hdir Hloop. unfold main. rewrite Hdir. simpl.
  fold (output_path_of (OS.resolve os w) a).
  fold (candidates (OS.resolve os w) (OS.scandir os w) a).
  by rewrite Hloop.
Qed.

Lemma main_failed (a : args) (w : W) (e : exn) :
  is_dir (OS.scandir os w) (OS.resolve os w (directory a)) = true →
  extend_all json_load os w []
    (candidates (OS.resolve os w) (OS.scandir os w) a) = Raise e →
  main json_load float_repr os a w = (w, Raise e).
Proof.
  intros Hdir Hloop. unfold main. rewrite Hdir. simpl.
  fold (output_path_of (OS.resolve os w) a).
  fold (candidates (OS.resolve os w) (OS.scandir os w) a).
  by rewrite Hloop.
Qed.

End Loop.

End CombinerFacts.

(** *** The claims about the combiner *)

Section CombinerClaims.
Import combine_json Combiner.

Variable json_load : string → result Json.value.
Variable float_repr : spec_float → string.
Context {W : Type}.
Variable os : OS.t W.

(** C4. For the value that [json.load] returns for a file, the loader
    returns the value itself when it is a list and the one-element list of
    the value otherwise: object, string, number, boolean or null. *)
Theorem load_json_as_list_wraps_non_lists (w : W) (path : PurePath.t)
    (data : Json.value) :
  holds json_load os w path data →
  (∀ items, data = Json.PyList items →
            load_json_as_list json_load os w path = Ok items) ∧
  (Json.is_list data = false →
   load_json_as_list json_load os w path = Ok [data]).
Proof.
  intros H. rewrite (CombinerFacts.load_holds _ _ _ _ _ H).
  split; [by intros items ->|]. by destruct data.
Qed.

(** C3. When the directory exists and [json.load] returns the arrays
    [arrays] for the candidate files, one each, the run combines the
    concatenation of the arrays in the order of the candidates: it ends by
    writing the serialized concatenation to the output path and, when that
    succeeded, by reporting the number of candidates and the number of
    entries.  That number is the sum of the lengths, and the candidates are
    the matching entries of the directory other than the output file, in
    the lexicographic order of their names. *)
Theorem combined_is_concatenation_in_name_order (a : args) (w : W)
    (arrays : list (list Json.value)) :
  let resolve := OS.resolve os w in
  let scandir := OS.scandir os w in
  is_dir scandir (resolve (directory a)) = true →
  Forall2 (λ path items, holds json_load os w path (Json.PyList items))
    (candidates resolve scandir a) arrays →
  extend_all json_load os w [] (candidates resolve scandir a)
    = Ok (concat arrays) ∧
  main json_load float_repr os a w
    = finish float_repr os w (output_path_of resolve a)
        (length (candidates resolve scandir a)) (concat arrays) ∧
  length (concat arrays) = sum_list (length <$> arrays) ∧
  StronglySorted String.le (PurePath.name <$> candidates resolve scandir a) ∧
  candidates resolve scandir a
    ≡ₚ filter (λ path, resolve path ≠ resolve (output_path_of resolve a))
         (glob_json scandir (resolve (directory a))).
Proof.
  intros resolve scandir Hdir Harrays.
  assert (extend_all json_load os w [] (candidates resolve scandir a)
          = Ok (concat arrays)) as Hloop.
  { rewrite (CombinerFacts.extend_all_ok json_load os w _ arrays); [done|].
    eapply Forall2_impl; [exact Harrays|].
    intros path items H. by rewrite (CombinerFacts.load_holds _ _ _ _ _ H). }
  split_and!.
  - done.
  - by apply CombinerFacts.main_loaded.
  - clear. induction arrays as [|items arrays IH]; simpl; [done|].
    by rewrite length_app, IH.
  - apply CombinerFacts.collect_sorted_by_name.
  - apply CombinerFacts.collect_Permutation.
Qed.

(** C2, as the code has it.  When the first candidate that does not load
    fails with [e] (on opening, reading or decoding), the run ends before
    anything is created or written: the world is the one it started in.  The
    error is [RuntimeError] with the text [Failed to parse] and the path of
    the file when [e] is [JSONDecodeError], and [e] itself otherwise, which
    does not name the file.  And whenever some candidate does not load, the
    run ends with an error in the world it started in. *)
Theorem malformed_file_aborts_without_output (a : args) (w : W)
    (loaded : list PurePath.t) (bad : PurePath.t) (rest : list PurePath.t)
    (e : exn) :
  let resolve := OS.resolve os w in
  let scandir := OS.scandir os w in
  is_dir scandir (resolve (directory a)) = true →
  candidates resolve scandir a = loaded ++ bad :: rest →
  Forall (λ path, ∃ data, holds json_load os w path data) loaded →
  fails json_load os w bad e →
  (e = JSONDecodeError →
   main json_load float_repr os a w
     = (w, Raise (RuntimeError ("Failed to parse " +:+ PurePath.str bad)))) ∧
  (e ≠ JSONDecodeError → main json_load float_repr os a w = (w, Raise e)) ∧
  (∀ a0 w0 path e0,
     is_dir (OS.scandir os w0) (OS.resolve os w0 (directory a0)) = true →
     path ∈ candidates (OS.resolve os w0) (OS.scandir os w0) a0 →
     fails json_load os w0 path e0 →
     ∃ e1, main json_load float_repr os a0 w0 = (w0, Raise e1)).
Proof.
  intros resolve scandir Hdir Hcand Hloaded Hbad.
  assert (∀ e', load_json_as_list json_load os w bad = Raise e' →
                main json_load float_repr os a w = (w, Raise e')) as Hmain.
  { intros e' He'. apply CombinerFacts.main_failed; [done|].
    fold resolve scandir. rewrite Hcand.
    apply CombinerFacts.extend_all_raise; [|done].
    eapply Forall_impl; [exact Hloaded|]. intros path [data H].
    eexists. by apply CombinerFacts.load_holds. }
  pose proof (CombinerFacts.load_fails _ _ _ _ _ Hbad) as Hload.
  split_and!.
  - intros ->. by apply Hmain.
  - intros Hne. apply Hmain. rewrite Hload. by destruct e.
  - clear. intros a0 w0 path e0 Hdir Hin Hfail.
    destruct (CombinerFacts.extend_all_some_failure json_load os w0 _ []
                path e0 Hin Hfail) as [e1 Hloop].
    exists e1. by apply CombinerFacts.main_failed.
Qed.

(** C10, as the code has it.  For an existing directory without candidate
    files the run creates the missing directories above the output path,
    writes the empty JSON array to the output path and reports no file and
    no entry; it ends with the first of the three that fails, and succeeds
    when none does. *)
Theorem empty_directory_writes_empty_array (a : args) (w : W) :
  let resolve := OS.resolve os w in
  let scandir := OS.scandir os w in
  let output_path := output_path_of resolve a in
  is_dir scandir (resolve (directory a)) = true →
  candidates resolve scandir a = [] →
  main json_load float_repr os a w
    = match OS.mkdir os w (PurePath.parent output_path) with
      | (w1, Raise e) => (w1, Raise e)
      | (w1, Ok _) =>
          match OS.write_text os w1 output_path "[]" with
          | (w2, Raise e) => (w2, Raise e)
          | (w2, Ok _) =>
              OS.print os w2
                ("Combined 0 file(s) into " +:+ PurePath.str output_path
                 +:+ " with 0 item(s).")
          end
      end.
Proof.
  intros resolve scandir output_path Hdir Hcand.
  rewrite (CombinerFacts.main_loaded json_load float_repr os a w []);
    [|done|fold resolve scandir; by rewrite Hcand].
  fold resolve scandir output_path. rewrite Hcand.
  unfold finish, write_combined_json.
  destruct (OS.mkdir os w (PurePath.parent output_path)) as [w1 [[]|e]];
    [|done].
  change (Json.dumps float_repr 2 (Json.PyList [])) with "[]".
  destruct (OS.write_text os w1 output_path "[]") as [w2 [[]|e]]; [|done].
  reflexivity.
Qed.

End CombinerClaims.

(** [a.json] holds an array and is returned as it is. *)
Lemma load_json_as_list_wraps_non_lists_witness :
  combine_json.load_json_as_list Combiner.toy_json_load Posix.os
    (Combiner.data_world (Posix.File "{}")) (PurePath.parse "/data/a.json")
  = Ok [Json.PyInt 1; Json.PyInt 2].
Proof.
  apply (load_json_as_list_wraps_non_lists Combiner.toy_json_load Posix.os
           (Combiner.data_world (Posix.File "{}"))
           (PurePath.parse "/data/a.json")
           (Json.PyList [Json.PyInt 1; Json.PyInt 2])).
  - exists "[1, 2]". split; reflexivity.
  - reflexivity.
Defined.

(** [/data] holds [a.json = [1, 2]], [b.json = [3]], [notes.txt] and an old
    [all.json]; the run combines [a.json] and [b.json] in that order and
    replaces [all.json]. *)
Lemma combined_is_concatenation_in_name_order_witness :
  combine_json.main Combiner.toy_json_load (λ _, "") Posix.os
    Combiner.data_args (Combiner.data_world (Posix.File "[3]"))
  = ({| Posix.nodes :=
          <[ "/data/all.json"
             := Posix.File
                  (Json.dumps (λ _, "") 2
                     (Json.PyList [Json.PyInt 1; Json.PyInt 2; Json.PyInt 3])) ]>
            (Posix.nodes (Combiner.data_world (Posix.File "[3]")));
        Posix.cwd := PurePath.parse "/";
        Posix.stdout := "Combined 2 file(s) into /data/all.json with 3 item(s)."
                        +:+ PyStr.LF |},
     Ok ()).
Proof.
  destruct (combined_is_concatenation_in_name_order Combiner.toy_json_load
              (λ _, "") Posix.os Combiner.data_args
              (Combiner.data_world (Posix.File "[3]"))
              [[Json.PyInt 1; Json.PyInt 2]; [Json.PyInt 3]])
    as (_ & Hmain & _).
  - reflexivity.
  - change (Combiner.candidates _ _ Combiner.data_args)
      with [PurePath.parse "/data/a.json"; PurePath.parse "/data/b.json"].
    repeat constructor.
    + exists "[1, 2]". split; reflexivity.
    + exists "[3]". split; reflexivity.
  - rewrite Hmain. reflexivity.
Defined.

(** The same directory with a broken [b.json]: the run names it and leaves
    [all.json] as it was. *)
Lemma malformed_file_aborts_without_output_witness :
  combine_json.main Combiner.toy_json_load (λ _, "") Posix.os
    Combiner.data_args (Combiner.data_world (Posix.File "{oops"))
  = (Combiner.data_world (Posix.File "{oops"),
     Raise (RuntimeError "Failed to parse /data/b.json")).
Proof.
  apply (malformed_file_aborts_without_output Combiner.toy_json_load
           (λ _, "") Posix.os Combiner.data_args
           (Combiner.data_world (Posix.File "{oops"))
           [PurePath.parse "/data/a.json"] (PurePath.parse "/data/b.json") []
           JSONDecodeError).
  - reflexivity.
  - reflexivity.
  - repeat constructor. eexists. exists "[1, 2]". split; reflexivity.
  - reflexivity.
  - reflexivity.
Defined.

(** The same directory with a [b.json] that is not UTF-8, or that holds an
    integer too long for the decoder: loading it fails, and the error of the
    run does not name the file. *)
Lemma unnamed_failure_counterexample :
  combine_json.main Combiner.toy_json_load (λ _, "") Posix.os
    Combiner.data_args (Combiner.data_world Posix.Binary)
  = (Combiner.data_world Posix.Binary, Raise UnicodeDecodeError) ∧
  combine_json.main Combiner.toy_json_load (λ _, "") Posix.os
    Combiner.data_args (Combiner.data_world (Posix.File Combiner.long_int_text))
  = (Combiner.data_world (Posix.File Combiner.long_int_text), Raise ValueError).
Proof. split; vm_compute; reflexivity. Qed.

(** A directory that holds only a text file: the run writes [all.json]. *)
Lemma empty_directory_writes_empty_array_witness :
  combine_json.main Combiner.toy_json_load (λ _, "") Posix.os
    Combiner.data_args Combiner.notes_world
  = ({| Posix.nodes := <[ "/data/all.json" := Posix.File "[]" ]>
                         (Posix.nodes Combiner.notes_world);
        Posix.cwd := PurePath.parse "/";
        Posix.stdout := "Combined 0 file(s) into /data/all.json with 0 item(s)."
                        +:+ PyStr.LF |},
     Ok ()).
Proof.
  rewrite (empty_directory_writes_empty_array Combiner.toy_json_load
             (λ _, "") Posix.os Combiner.data_args Combiner.notes_world).
  - reflexivity.
  - reflexivity.
  - reflexivity.
Defined.

(** The same directory with [-o .]: the output path is the directory
    itself, opening it for writing fails and the run does not succeed. *)
Lemma output_is_directory_counterexample :
  combine_json.is_dir (Posix.scandir Combiner.notes_world)
    (Posix.resolve Combiner.notes_world Combiner.data_dir) = true ∧
  Combiner.candidates (Posix.resolve Combiner.notes_world)
    (Posix.scandir Combiner.notes_world)
    {| combine_json.directory := Combiner.data_dir;
       combine_json.output := PurePath.parse "." |} = [] ∧
  combine_json.main Combiner.toy_json_load (λ _, "") Posix.os
    {| combine_json.directory := Combiner.data_dir;
       combine_json.output := PurePath.parse "." |}
    Combiner.notes_world
  = (Combiner.notes_world, Raise (IsADirectoryError "/data")).
Proof. split_and!; vm_compute; reflexivity. Qed.


(** * Further properties *)

(** ** The scanner over whole documents *)

Module ScannerMoreFacts.
Import extract_contracts ContractHTMLParser Scanner ScannerMore PyStr PyStrFacts.

Lemma handle_starttag_identified (self : t) tag attrs :
  handle_starttag self tag attrs =
    match identified tag attrs with
    | Some element_id =>
        {| _current_id := Some element_id;
           values := setdefault element_id "" (values self) |}
    | None => self
    end.
Proof.
  unfold handle_starttag, identified, id_attr.
  repeat case_decide; try done.
  destruct (mjoin _) as [i|]; [|done]. by destruct (truthy i).
Qed.

Lemma dom_setdefault {V} (k : string) (v : V) (d : gmap string V) :
  dom (setdefault k v d) = dom d ∪ {[ k ]}.
Proof.
  unfold setdefault. destruct (d !! k) as [x|] eqn:E.
  - assert (k ∈ dom d) by (apply elem_of_dom; eauto). set_solver.
  - rewrite dom_insert_L. set_solver.
Qed.

Lemma handle_data_dom (self self' : t) data :
  handle_data self data = Ok self' → dom (values self') = dom (values self).
Proof.
  unfold handle_data. intros H.
  repeat (case_match; simplify_eq/=); try done;
    rewrite dom_insert_L;
    match goal with
    | E : values self !! ?k = Some _ |- _ =>
        assert (k ∈ dom (values self)) by (apply elem_of_dom; eauto)
    end; set_solver.
Qed.

Lemma feed_dom (events : list event) (self self' : t) :
  feed self events = Ok self' →
  dom (values self') = dom (values self) ∪ list_to_set (span_ids events).
Proof.
  revert self. induction events as [|ev events IH]; intros self; simpl.
  { intros [= <-]. set_solver. }
  destruct ev as [tag attrs|data|tag]; simpl.
  - intros H%IH. rewrite H, handle_starttag_identified. unfold span_ids. simpl.
    destruct (identified tag attrs) as [i|]; simpl; [|done].
    rewrite dom_setdefault. set_solver.
  - destruct (handle_data self data) as [self1|e] eqn:E; simpl; [|done].
    intros H%IH. by rewrite H, (handle_data_dom _ _ _ E).
  - intros H%IH. rewrite H. unfold handle_endtag. by case_decide.
Qed.

(** One event only extends the accumulated texts. *)
Lemma handle_extends (self self' : t) (ev : event) (k v : string) :
  handle self ev = Ok self' → values self !! k = Some v →
  ∃ more, values self' !! k = Some (v +:+ more).
Proof.
  intros H Hk. destruct ev as [tag attrs|data|tag]; simpl in H.
  - injection H as <-. rewrite handle_starttag_identified.
    destruct (identified tag attrs) as [i|]; simpl.
    + rewrite ScannerFacts.setdefault_lookup. case_decide; subst.
      * rewrite Hk. simpl. exists "". by rewrite sapp_nil_r.
      * exists "". by rewrite sapp_nil_r.
    + exists "". by rewrite sapp_nil_r.
  - unfold handle_data in H.
    repeat (case_match; simplify_eq/=);
      try (exists ""; by rewrite sapp_nil_r).
    + rewrite lookup_insert. case_decide; subst.
      * simplify_eq. eauto.
      * exists "". by rewrite sapp_nil_r.
    + rewrite lookup_insert. case_decide; subst.
      * simplify_eq.
        match goal with H : truthy ?c = false |- _ =>
          apply truthy_false in H; subst end.
        eexists. by rewrite sapp_nil_l.
      * exists "". by rewrite sapp_nil_r.
  - injection H as <-. unfold handle_endtag. case_decide; simpl;
      exists ""; by rewrite sapp_nil_r.
Qed.

Lemma feed_extends (events : list event) (self self' : t) (k v : string) :
  feed self events = Ok self' → values self !! k = Some v →
  ∃ more, values self' !! k = Some (v +:+ more).
Proof.
  revert self v. induction events as [|ev events IH]; intros self v; simpl.
  { intros [= <-] Hk. exists "". by rewrite sapp_nil_r. }
  destruct (handle self ev) as [self1|e] eqn:E; simpl; [|done].
  intros Hf Hk. destruct (handle_extends _ _ _ _ _ E Hk) as [m1 H1].
  destruct (IH _ _ Hf H1) as [m2 H2]. exists (m1 +:+ m2).
  by rewrite <- sapp_assoc.
Qed.

Lemma feed_no_current (texts : list string) (self : t) :
  _current_id self = None → feed self (Data <$> texts) = Ok self.
Proof.
  intros H. induction texts as [|data texts IH]; [done|].
  rewrite fmap_cons. simpl. unfold handle_data. rewrite H. simpl. exact IH.
Qed.

Lemma foldl_insert_other {V} (k : string) (pairs : list (string * V))
    (d : gmap string V) :
  Forall (λ kv, kv.1 ≠ k) pairs →
  foldl (λ d kv, <[kv.1:=kv.2]> d) d pairs !! k = d !! k.
Proof.
  intros H. revert d. induction H as [|kv pairs Hne _ IH]; intros d; simpl;
    [done|].
  rewrite IH. by rewrite lookup_insert_ne.
Qed.

End ScannerMoreFacts.

Section ScannerMoreTheorems.
Import extract_contracts ContractHTMLParser Scanner ScannerMore PyStr.

(** X1. The handlers never raise: fed any events from its initial state,
    the scanner returns, because the lookup [self.values[self._current_id]]
    of [handle_data] always finds its key (the only place that sets the
    current id also enters it in [values]).  So [parse_contracts] raises in
    two cases only: with the exception the tokenizer of the library ends
    with, or, when there is none, with the [ValueError] of [int] on a row
    numeral that is too long; in every other case it returns. *)
Theorem scanner_never_raises :
  (∀ events, ∃ parser, feed init events = Ok parser) ∧
  (∀ max_str_digits tokenize enumerate html_source,
     ∃ parser,
       feed init (tokenize html_source).1 = Ok parser ∧
       match (tokenize html_source).2 with
       | Some e =>
           parse_contracts max_str_digits tokenize enumerate html_source
             = Raise e
       | None =>
           (Assembler.within_limit max_str_digits (values parser) ∧
            ∃ contracts,
              parse_contracts max_str_digits tokenize enumerate html_source
                = Ok contracts) ∨
           (¬ Assembler.within_limit max_str_digits (values parser) ∧
            parse_contracts max_str_digits tokenize enumerate html_source
              = Raise ValueError)
       end).
Proof.
  split.
  - intros events.
    destruct (ScannerFacts.feed_init_total events) as (parser & H & _). eauto.
  - intros max_str_digits tokenize enumerate html_source.
    destruct (IndexFacts.parse_contracts_feed max_str_digits tokenize
                enumerate html_source) as (parser & Hfeed & ->).
    exists parser. split; [done|].
    destruct ((tokenize html_source).2); [done|].
    destruct (IndexFacts.contracts_of_spec max_str_digits enumerate
                (values parser)) as [[H ->] | [H ->]]; [left|right]; eauto.
Qed.

(** X2. After a whole document the keys of the accumulated mapping are
    exactly the non-empty ids of the spans that opened in it: text nodes and
    end tags add no key, and no key is ever removed. *)
Theorem accumulated_keys_are_span_ids (events : list event) :
  ∃ parser, feed init events = Ok parser ∧
            dom (values parser) = list_to_set (span_ids events).
Proof.
  destruct (ScannerFacts.feed_init_total events) as (parser & H & _).
  exists parser. split; [done|].
  rewrite (ScannerMoreFacts.feed_dom _ _ _ H). simpl. set_solver.
Qed.

(** X3. The end tag of a span clears the current id whatever was open, and
    the text nodes that follow it are discarded: they change neither the
    current id nor any accumulated text.  This holds for the end tag of an
    inner span too, so the rest of the text of the outer span is lost. *)
Theorem text_after_span_end_is_discarded (self : t) (tag : string)
    (texts : list string) :
  lower tag = "span" →
  feed self (EndTag tag :: (Data <$> texts))
    = Ok {| _current_id := None; values := values self |}.
Proof.
  intros Htag. simpl. unfold handle_endtag. rewrite decide_True by done.
  by apply ScannerMoreFacts.feed_no_current.
Qed.

(** [<span id=a>x<span id=b>y</span>lost</span>]: [lost] reaches no id. *)
Lemma text_after_span_end_is_discarded_witness :
  feed init [ StartTag "span" [("id", Some "a")]; Data "x";
              StartTag "span" [("id", Some "b")]; Data "y";
              EndTag "SPAN"; Data "lost" ]
  = Ok {| _current_id := None; values := {[ "a" := "x"; "b" := "y" ]} |}.
Proof.
  change (feed {| _current_id := Some "b";
                  values := {[ "a" := "x"; "b" := "y" ]} |}
            (EndTag "SPAN" :: (Data <$> ["lost"]))
          = Ok {| _current_id := None; values := {[ "a" := "x"; "b" := "y" ]} |}).
  exact (text_after_span_end_is_discarded
           {| _current_id := Some "b"; values := {[ "a" := "x"; "b" := "y" ]} |}
           "SPAN" ["lost"] eq_refl).
Defined.

(** X4. Feeding events only extends what was accumulated: a key that has a
    text keeps it as the beginning of its text, whatever follows; opening a
    span with an id seen before does not reset its text. *)
Theorem accumulated_text_only_grows (events : list event) (self self' : t)
    (k v : string) :
  feed self events = Ok self' →
  values self !! k = Some v →
  ∃ more, values self' !! k = Some (v +:+ more).
Proof. apply ScannerMoreFacts.feed_extends. Qed.

(** The id [a] opens twice; its first text stays in front. *)
Lemma accumulated_text_only_grows_witness :
  ∃ more,
    values {| _current_id := Some "a"; values := {[ "a" := "x y" ]} |} !! "a"
    = Some ("x" +:+ more).
Proof.
  apply (accumulated_text_only_grows
           [ EndTag "span"; StartTag "span" [("id", Some "a")]; Data " y " ]
           {| _current_id := Some "a"; values := {[ "a" := "x" ]} |}
           {| _current_id := Some "a"; values := {[ "a" := "x y" ]} |}
           "a" "x").
  - by vm_compute.
  - reflexivity.
Defined.

(** X18. When a start tag carries several [id] attributes the last one
    decides, since [dict(attrs)] keeps the last value of a repeated name: the
    id is the value of the last attribute named [id], and an attribute of
    another name after it changes nothing. *)
Theorem last_id_attribute_decides (before after : list (string * option string))
    (v : option string) :
  Forall (λ attr, attr.1 ≠ "id") after →
  id_attr (before ++ ("id", v) :: after) = v.
Proof.
  intros Hafter. unfold id_attr, dict. rewrite foldl_app. cbn [foldl].
  rewrite ScannerMoreFacts.foldl_insert_other by done.
  by rewrite lookup_insert_eq.
Qed.

(** [<span id="first" class="c" id="second">] opens the id [second]. *)
Lemma last_id_attribute_decides_witness :
  handle_starttag init "span"
    [("id", Some "first"); ("id", Some "second"); ("class", Some "c")]
  = {| _current_id := Some "second"; values := {[ "second" := "" ]} |} ∧
  id_attr [("id", Some "first"); ("id", Some "second"); ("class", Some "c")]
  = Some "second".
Proof.
  split; [reflexivity|].
  apply (last_id_attribute_decides [("id", Some "first")] [("class", Some "c")]
           (Some "second")).
  repeat constructor. by vm_compute.
Defined.

(** X19. Text nodes that hold only whitespace change nothing, in any
    state: the stripped text is tested before [values] is read or written, so
    such nodes add no space and no key and cannot raise. *)
Theorem blank_text_nodes_change_nothing (self : t) (texts : list string) :
  Forall (λ data, strip data = "") texts →
  feed self (Data <$> texts) = Ok self.
Proof.
  intros H. induction H as [|data texts Hd _ IH]; [done|].
  rewrite fmap_cons. simpl. unfold handle_data. rewrite Hd.
  destruct (_current_id self) as [cid|]; simpl; [|exact IH].
  destruct (truthy cid); simpl; exact IH.
Qed.

(** Line breaks and indentation between tags, with a current id that is no
    key of [values]. *)
Lemma blank_text_nodes_change_nothing_witness :
  feed {| _current_id := Some "a"; values := ∅ |}
    [Data (LF +:+ "    "); Data ""; Data (String (ascii_of_N 160) "")]
  = Ok {| _current_id := Some "a"; values := ∅ |}.
Proof.
  apply (blank_text_nodes_change_nothing
           {| _current_id := Some "a"; values := ∅ |}
           [LF +:+ "    "; ""; String (ascii_of_N 160) ""]).
  repeat constructor.
Defined.

End ScannerMoreTheorems.

(** ** Indices, keys and records *)

Module AssemblerMoreFacts.
Import extract_contracts Assembler PyStr PyStrFacts.

(** A key with the decimal text of [idx] after a middle part without
    underscore matches, and has index [idx]. *)
Lemma match_canonical (middle : string) (idx : N) :
  truthy middle = true → contains "_" middle = false →
  INDEX_PATTERN_match ("Repeater1_" +:+ middle +:+ "_" +:+ of_nat_N idx)
    = Some (of_nat_N idx).
Proof.
  intros Hm Hc. destruct (IndexFacts.of_nat_N_digits idx) as [Hne Hall].
  apply IndexFacts.INDEX_PATTERN_match_spec. exists middle, "".
  split_and!; try done; [|by left]. by rewrite sapp_nil_r.
Qed.

Lemma row_index_canonical (middle : string) (idx : N) :
  truthy middle = true → contains "_" middle = false →
  row_index ("Repeater1_" +:+ middle +:+ "_" +:+ of_nat_N idx) = Some idx.
Proof.
  intros Hm Hc. unfold row_index.
  destruct (IndexFacts.of_nat_N_digits idx) as [Hne Hall].
  assert (INDEX_PATTERN_match
            ("Repeater1_" +:+ middle +:+ "_" +:+ of_nat_N idx)
          = Some (of_nat_N idx)) as ->.
  { apply IndexFacts.INDEX_PATTERN_match_spec. exists middle, "".
    split_and!; try done; [|by left]. by rewrite sapp_nil_r. }
  simpl. apply IndexFacts.to_N_of_nat_N.
Qed.

Lemma format_template (middle : string) (idx : N) :
  contains "{" middle = false →
  format ("Repeater1_" +:+ middle +:+ "_{idx}") idx
    = "Repeater1_" +:+ middle +:+ "_" +:+ of_nat_N idx.
Proof.
  intros Hm. unfold format.
  change (format_go (of_nat_N idx) 0 ("Repeater1_" +:+ middle +:+ "_{idx}"))
    with ("Repeater1_" +:+ format_go (of_nat_N idx) 0 (middle +:+ "_{idx}")).
  f_equal. induction middle as [|c middle IH].
  - rewrite sapp_nil_l. cbn. by rewrite sapp_nil_r.
  - simpl in Hm. case_decide as Hc; [done|].
    rewrite !sapp_cons. cbn [format_go startswith].
    rewrite decide_False by congruence. f_equal. by apply IH.
Qed.

End AssemblerMoreFacts.

Section AssemblerMoreTheorems.
Import extract_contracts Assembler ScannerMore PyStr.

(** X5. What [INDEX_PATTERN.match] accepts and captures: a key matches
    with group 1 equal to [digits] exactly when it is [Repeater1_], a
    non-empty middle part without underscore, an underscore, the non-empty
    run of decimal digits [digits], and then nothing or one final line
    feed.  So a key with two underscores after the prefix, an empty middle
    part, no digits, or text after the digits does not match. *)
Theorem index_pattern_language (element_id digits : string) :
  INDEX_PATTERN_match element_id = Some digits ↔
  ∃ middle ending,
    element_id = "Repeater1_" +:+ middle +:+ "_" +:+ digits +:+ ending ∧
    truthy middle = true ∧ contains "_" middle = false ∧
    truthy digits = true ∧ all is_digit digits = true ∧
    (ending = "" ∨ ending = LF).
Proof. apply IndexFacts.INDEX_PATTERN_match_spec. Qed.

(** X6. Formatting and matching round trip, for each of the ten templates:
    the identifier a template gives for an index matches [INDEX_PATTERN],
    group 1 is the decimal text of the index and denotes the index.  Hence,
    whenever the set comprehension returns, a text accumulated under any
    field of a row makes the row's index one of the indices. *)
Theorem template_ids_round_trip :
  Forall (λ item : string * string,
            ∀ idx,
              INDEX_PATTERN_match (format item.2 idx) = Some (of_nat_N idx) ∧
              to_N (of_nat_N idx) = Some idx ∧
              ∀ max_str_digits (raw_values : gmap string string) indices,
                index_set max_str_digits raw_values = Ok indices →
                is_Some (raw_values !! format item.2 idx) →
                idx ∈ indices)
         FIELD_ID_MAP.
Proof.
  assert (∀ middle, truthy middle = true → contains "_" middle = false →
                    contains "{" middle = false →
          ∀ idx,
            INDEX_PATTERN_match
              (format ("Repeater1_" +:+ middle +:+ "_{idx}") idx)
              = Some (of_nat_N idx) ∧
            to_N (of_nat_N idx) = Some idx ∧
            ∀ max_str_digits (raw_values : gmap string string) indices,
              index_set max_str_digits raw_values = Ok indices →
              is_Some (raw_values
                         !! format ("Repeater1_" +:+ middle +:+ "_{idx}") idx) →
              idx ∈ indices) as Hone.
  { intros middle H1 H2 H3 idx.
    rewrite AssemblerMoreFacts.format_template by done.
    pose proof (AssemblerMoreFacts.row_index_canonical middle idx H1 H2) as Hr.
    pose proof (AssemblerMoreFacts.match_canonical middle idx H1 H2) as Hm.
    split; [done|]. split; [apply IndexFacts.to_N_of_nat_N|].
    intros max_str_digits raw_values indices Hset Hin.
    apply IndexFacts.index_set_Ok in Hset as [_ ->].
    apply IndexFacts.elem_of_row_indices. eauto. }
  unfold FIELD_ID_MAP.
  apply Forall_cons; split; [exact (Hone "lblCustomerId" eq_refl eq_refl eq_refl)|].
  apply Forall_cons; split; [exact (Hone "lblContactName" eq_refl eq_refl eq_refl)|].
  apply Forall_cons; split; [exact (Hone "lblCountry" eq_refl eq_refl eq_refl)|].
  apply Forall_cons; split; [exact (Hone "Label5" eq_refl eq_refl eq_refl)|].
  apply Forall_cons; split; [exact (Hone "Label6" eq_refl eq_refl eq_refl)|].
  apply Forall_cons; split; [exact (Hone "Label2" eq_refl eq_refl eq_refl)|].
  apply Forall_cons; split; [exact (Hone "Label3" eq_refl eq_refl eq_refl)|].
  apply Forall_cons; split; [exact (Hone "Label4" eq_refl eq_refl eq_refl)|].
  apply Forall_cons; split; [exact (Hone "Label7" eq_refl eq_refl eq_refl)|].
  apply Forall_cons; split; [exact (Hone "Label1" eq_refl eq_refl eq_refl)|].
  apply Forall_nil_2.
Qed.

(** X7. Looking a field up in the record of an index gives what the
    accumulated mapping holds under that field's identifier for the index,
    [None] when it holds nothing: for each of the ten fields. *)
Theorem record_field_lookup :
  Forall (λ item : string * string,
            ∀ (raw_values : gmap string string) idx,
              odict_get item.1 (build_record raw_values idx)
              = Some (raw_values !! format item.2 idx))
         FIELD_ID_MAP.
Proof.
  unfold FIELD_ID_MAP.
  repeat (apply Forall_cons; split;
          [ intros raw_values idx;
            rewrite AssemblerFacts.build_record_fmap; reflexivity | ]).
  apply Forall_nil_2.
Qed.

(** X8. The record of an index reads the accumulated mapping only under the
    ten identifiers formatted for that index: two mappings that agree there
    give the same record.  A text under a key with a zero-padded index is
    therefore never read. *)
Theorem record_reads_only_its_ten_keys (raw1 raw2 : gmap string string)
    (idx : N) :
  (∀ item, item ∈ FIELD_ID_MAP →
           raw1 !! format item.2 idx = raw2 !! format item.2 idx) →
  build_record raw1 idx = build_record raw2 idx.
Proof.
  intros H. rewrite !AssemblerFacts.build_record_fmap.
  apply list_fmap_ext. intros i item Hi. f_equal. apply H.
  by eapply list_elem_of_lookup_2.
Qed.

(** The key [Repeater1_lblCustomerId_007] has index 7 and is not read. *)
Lemma record_reads_only_its_ten_keys_witness :
  row_index "Repeater1_lblCustomerId_007" = Some 7 ∧
  build_record {[ "Repeater1_lblCustomerId_007" := "C-7" ]} 7
  = build_record ∅ 7.
Proof.
  split; [reflexivity|].
  apply (record_reads_only_its_ten_keys
           {[ "Repeater1_lblCustomerId_007" := "C-7" ]} ∅ 7).
  intros item Hin. unfold FIELD_ID_MAP in Hin.
  repeat (apply elem_of_cons in Hin as [-> | Hin]; [by vm_compute|]).
  by apply elem_of_nil in Hin.
Defined.

(** X9. Every record that is returned has a [contract_id] that is a
    non-empty string, whatever the order of the indices. *)
Theorem returned_records_have_contract_id (max_str_digits : nat)
    (enumerate : gset N → list N) (raw_values : gmap string string)
    (contracts : list contract) (record : contract) :
  contracts_of max_str_digits enumerate raw_values = Ok contracts →
  record ∈ contracts →
  ∃ text, odict_get "contract_id" record = Some (Some text) ∧ text ≠ "".
Proof.
  intros Hc.
  destruct (IndexFacts.contracts_of_spec max_str_digits enumerate raw_values)
    as [[_ E] | [_ E]]; rewrite E in Hc; [|done].
  injection Hc as <-. rewrite AssemblerFacts.assemble_filter.
  intros (idx & -> & [Hid _]%list_elem_of_filter)%list_elem_of_fmap.
  pose proof (AssemblerFacts.build_record_contract_id raw_values idx) as Hc.
  destruct (raw_values !! contract_id_key idx) as [text|] eqn:E'; [|done].
  exists text. split.
  - destruct (odict_get "contract_id" (build_record raw_values idx))
      as [[t|]|]; simplify_eq/=; done.
  - by apply PyStrFacts.truthy_true.
Qed.

Lemma returned_records_have_contract_id_witness :
  ∃ text, odict_get "contract_id" row_C1 = Some (Some text) ∧ text ≠ "".
Proof.
  apply (returned_records_have_contract_id 4300 elements
           {[ contract_id_key 0 := "C-1"; contract_id_key 1 := "" ]}
           [row_C1] row_C1).
  - by vm_compute.
  - left.
Defined.

(** X10. A document in which no span with a non-empty id opens gives no
    record, whatever else it holds: [parse_contracts] returns the empty
    list, unless the tokenizer of the library ends with an exception. *)
Theorem no_identified_span_no_record (max_str_digits : nat)
    (tokenize : string → list event * option exn)
    (enumerate : gset N → list N) (html_source : string) :
  (∀ s, enumerate s ≡ₚ elements s) →
  span_ids (tokenize html_source).1 = [] →
  parse_contracts max_str_digits tokenize enumerate html_source
    = match (tokenize html_source).2 with
      | Some e => Raise e
      | None => Ok []
      end.
Proof.
  intros Hperm Hids.
  destruct (IndexFacts.parse_contracts_feed max_str_digits tokenize enumerate
              html_source) as (parser & Hf & ->).
  destruct ((tokenize html_source).2); [done|].
  pose proof (ScannerMoreFacts.feed_dom _ _ _ Hf) as Hdom.
  rewrite Hids in Hdom. simpl in Hdom.
  assert (ContractHTMLParser.values parser = ∅) as ->.
  { apply dom_empty_iff_L. rewrite Hdom. set_solver. }
  unfold contracts_of.
  assert (index_set max_str_digits ∅ = Ok ∅) as -> by reflexivity.
  simpl. f_equal.
  rewrite (AssemblerFacts.sorted_enumerate enumerate Hperm). by vm_compute.
Qed.

(** [<p>text</p><span>no id</span>] *)
Lemma no_identified_span_no_record_witness :
  parse_contracts 4300
    (λ _, ([ StartTag "p" []; Data "text"; EndTag "p";
             StartTag "span" []; Data "no id"; EndTag "span" ], None))
    (λ s, reverse (elements s)) "<p>text</p><span>no id</span>"
  = Ok [].
Proof.
  rewrite (no_identified_span_no_record 4300 _ (λ s, reverse (elements s))).
  - reflexivity.
  - intros s. apply reverse_Permutation.
  - reflexivity.
Defined.

End AssemblerMoreTheorems.
(** ** The extractor's output name and failures *)

Section ExtractorMoreTheorems.
Import extract_contracts Extractor PyStr PyStrFacts.

(** X11. The name the extractor derives is never the name that was asked
    for, and different counts give different names.  So the path it writes
    to differs, as a path, from the path given by [--output]: it has the
    derived name and the same parent.  (Whether two different paths name
    different files is up to the file system.) *)
Theorem counted_name_is_new_and_tells_counts_apart (p : PurePath.t)
    (n m : nat) :
  counted_name p n ≠ PurePath.name p ∧
  (counted_name p n = counted_name p m → n = m) ∧
  (∀ final_path,
     PurePath.with_name p (counted_name p n) = Ok final_path →
     final_path ≠ p ∧
     PurePath.name final_path = counted_name p n ∧
     PurePath.parent final_path = PurePath.parent p).
Proof.
  destruct (ExtractorFacts.counted_name_spec p n) as (b1 & Hn1 & Hc1).
  destruct (ExtractorFacts.counted_name_spec p m) as (b2 & Hn2 & Hc2).
  assert (b2 = b1) as ->.
  { apply (sapp_inv_tail _ _ (join "" (PurePath.suffixes p))). congruence. }
  assert (counted_name p n ≠ PurePath.name p) as Hnew.
  { rewrite Hc1, Hn1. intros H%(f_equal String.length).
    rewrite !sapp_length in H. simpl in H. lia. }
  split_and!.
  - done.
  - rewrite Hc1, Hc2.
    intros H. apply (inj (String.app b1)), (inj (String.app "_")) in H.
    apply sapp_inv_tail in H.
    apply (f_equal to_N) in H. rewrite !IndexFacts.to_N_of_nat_N in H.
    injection H as H. by apply Nat2N.inj.
  - intros final_path. unfold PurePath.with_name.
    destruct (negb (truthy (PurePath.name p))); [done|].
    destruct (_ || _); [done|]. intros [= <-].
    assert (PurePath.name
              {| PurePath.root := PurePath.root p;
                 PurePath.tail := removelast (PurePath.tail p)
                                  ++ [counted_name p n] |}
            = counted_name p n) as Hname.
    { unfold PurePath.name. simpl. apply last_last. }
    split_and!.
    + intros Heq. rewrite Heq in Hname. by apply Hnew.
    + done.
    + unfold PurePath.parent. simpl. by rewrite removelast_last.
Qed.

Variable max_str_digits : nat.
Variable tokenize : string → list event * option exn.
Variable enumerate : gset N → list N.
Variable float_repr : spec_float → string.
Context {W : Type}.
Variable os : OS.t W.


End ExtractorMoreTheorems.

(** ** The combiner on arbitrary directories *)

Module CombinerMoreFacts.
Import combine_json Combiner CombinerMore.

Section Loads.

Variable json_load : string → result Json.value.
Variable float_repr : spec_float → string.
Context {W : Type}.
Variable os : OS.t W.

Lemma load_normalize (w : W) (path : PurePath.t) (data : Json.value) :
  holds json_load os w path data →
  load_json_as_list json_load os w path = Ok (normalize data).
Proof. apply CombinerFacts.load_holds. Qed.


Lemma extend_all_normalize (w : W) (json_files : list PurePath.t)
    (values : list Json.value) :
  Forall2 (holds json_load os w) json_files values →
  extend_all json_load os w [] json_files
    = Ok (concat (normalize <$> values)).
Proof.
  intros H.
  rewrite (CombinerFacts.extend_all_ok json_load os w json_files
             (normalize <$> values) []); [done|].
  apply Forall2_fmap_r. eapply Forall2_impl; [exact H|].
  intros path data Hd. by apply load_normalize.
Qed.

(** The run over candidates that all hold a value. *)
Lemma main_success (a : args) (w : W) (values : list Json.value) :
  is_dir (OS.scandir os w) (OS.resolve os w (directory a)) = true →
  Forall2 (holds json_load os w)
    (candidates (OS.resolve os w) (OS.scandir os w) a) values →
  main json_load float_repr os a w
    = finish float_repr os w (output_path_of (OS.resolve os w) a)
        (length (candidates (OS.resolve os w) (OS.scandir os w) a))
        (concat (normalize <$> values)).
Proof.
  intros Hdir Hvalues. apply CombinerFacts.main_loaded; [done|].
  by apply extend_all_normalize.
Qed.

End Loads.

Lemma length_concat_normalize (values : list Json.value) :
  length (concat (normalize <$> values))
    = sum_list_with (λ data, length (normalize data)) values.
Proof.
  induction values as [|data values IH]; [done|].
  rewrite fmap_cons. cbn [concat sum_list_with].
  by rewrite length_app, IH.
Qed.

End CombinerMoreFacts.

(** ** Numerals and the limit on their length *)

Module NumeralFacts.
Import PyStr.

Lemma string_of_uint_length (d : Decimal.uint) :
  String.length (NilEmpty.string_of_uint d) = Decimal.nb_digits d.
Proof. induction d; simpl; congruence. Qed.

(** The decimal text of the number a numeral denotes is not longer than
    the numeral. *)
Lemma of_nat_N_to_N_length (digits : string) (idx : N) :
  to_N digits = Some idx →
  (String.length (of_nat_N idx) ≤ String.length digits)%nat.
Proof.
  unfold to_N. destruct (truthy digits) eqn:Hne; [|done].
  destruct (NilEmpty.uint_of_string digits) as [d|] eqn:Hd; [|done].
  intros [= <-]. apply NilEmpty.sus in Hd. subst digits.
  unfold of_nat_N. rewrite DecimalN.Unsigned.to_of.
  rewrite !string_of_uint_length. apply DecimalFacts.nb_digits_unorm.
  by intros ->.
Qed.

End NumeralFacts.


Section CombinerMoreTheorems.
Import combine_json Combiner CombinerMore.

Variable resolve : PurePath.t → PurePath.t.

(** X13. Which files are combined: a path is a candidate exactly when it
    is the child of the directory for an entry of its listing whose name ends
    in [.json] and it does not resolve to what the output path resolves to.
    So the output file is never one of its own inputs, entries of other
    names are skipped, and nothing outside the directory is read. *)
Theorem candidates_characterised (scandir : PurePath.t → option (list string))
    (directory output_path path : PurePath.t) :
  path ∈ collect_json_files resolve scandir directory output_path ↔
  resolve path ≠ resolve output_path ∧
  ∃ entry, path = PurePath.make_child directory entry ∧
           PyStr.endswith ".json" entry = true ∧
           entry ∈ default [] (scandir directory).
Proof. apply CombinerFacts.elem_of_collect. Qed.

(** X14. The order in which the operating system lists the directory does
    not matter: two listings with the same entries give the same candidates
    in the same order. *)
Theorem listing_order_is_immaterial
    (scandir1 scandir2 : PurePath.t → option (list string))
    (directory output_path : PurePath.t) :
  default [] (scandir1 directory) ≡ₚ default [] (scandir2 directory) →
  collect_json_files resolve scandir1 directory output_path
    = collect_json_files resolve scandir2 directory output_path.
Proof.
  intros Hperm.
  apply (StronglySorted_unique_strong PurePath.le);
    try apply CombinerFacts.collect_sorted.
  - intros p q (_ & n1 & -> & _)%CombinerFacts.elem_of_collect
                (_ & n2 & -> & _)%CombinerFacts.elem_of_collect.
    rewrite !CombinerFacts.le_make_child. intros H1 H2.
    by rewrite (anti_symm String.le n1 n2).
  - rewrite !CombinerFacts.collect_Permutation. unfold glob_json.
    by rewrite Hperm.
Qed.

End CombinerMoreTheorems.

Section CombinerRunTheorems.
Import combine_json Combiner CombinerMore.

Variable json_load : string → result Json.value.
Variable float_repr : spec_float → string.
Context {W : Type}.
Variable os : OS.t W.

(** X15. When the directory exists and [json.load] returns the values
    [values] for the candidates, whatever their kinds, the run combines the
    concatenation of the normalized values in candidate order (an array
    contributes its items, any other value itself): it ends by writing that
    list to the output path and, when that succeeded, by reporting the
    number of candidates and the number of entries, which is the sum over
    the files of the array length or one. *)
Theorem combined_normalizes_every_value (a : args) (w : W)
    (values : list Json.value) :
  let resolve := OS.resolve os w in
  let scandir := OS.scandir os w in
  is_dir scandir (resolve (directory a)) = true →
  Forall2 (holds json_load os w) (candidates resolve scandir a) values →
  extend_all json_load os w [] (candidates resolve scandir a)
    = Ok (concat (normalize <$> values)) ∧
  main json_load float_repr os a w
    = finish float_repr os w (output_path_of resolve a)
        (length (candidates resolve scandir a))
        (concat (normalize <$> values)) ∧
  length (concat (normalize <$> values))
    = sum_list_with (λ data, if Json.is_list data
                             then length (normalize data) else 1%nat) values.
Proof.
  intros resolve scandir Hdir Hvalues. split_and!.
  - by apply CombinerMoreFacts.extend_all_normalize.
  - by apply CombinerMoreFacts.main_success.
  - rewrite CombinerMoreFacts.length_concat_normalize.
    clear. induction values as [|data values IH]; simpl; [done|].
    rewrite IH. by destruct data.
Qed.


End CombinerRunTheorems.

Section NumeralTheorems.
Import PyStr.

(** X20. An index that [int] returned has a decimal text that is not longer
    than the numeral it was read from, so that text passes the limit on the
    length of numerals that the numeral passed: formatting an identifier for
    an index of the set cannot fail for its length. *)
Theorem accepted_index_formats_within_limit (max_str_digits : nat)
    (digits : string) (idx : N) :
  int max_str_digits digits = Ok idx →
  to_N digits = Some idx ∧
  (String.length (of_nat_N idx) ≤ String.length digits)%nat ∧
  exceeds_max_str_digits max_str_digits (of_nat_N idx) = false.
Proof.
  unfold int.
  destruct (exceeds_max_str_digits max_str_digits digits) eqn:Hex; [done|].
  destruct (to_N digits) as [n|] eqn:Hn; [|done]. intros [= ->].
  pose proof (NumeralFacts.of_nat_N_to_N_length digits idx Hn) as Hlen.
  split_and!; [done..|].
  unfold exceeds_max_str_digits in *.
  apply bool_decide_eq_false in Hex. apply bool_decide_eq_false.
  intros (H1 & H2 & H3). apply Hex. lia.
Qed.

End NumeralTheorems.

Lemma listing_order_is_immaterial_witness :
  combine_json.collect_json_files id
    (Combiner.data_scandir ["b.json"; "notes.txt"; "all.json"; "a.json"])
    Combiner.data_dir (PurePath.parse "/data/all.json")
  = combine_json.collect_json_files id
      (Combiner.data_scandir ["a.json"; "all.json"; "b.json"; "notes.txt"])
      Combiner.data_dir (PurePath.parse "/data/all.json").
Proof.
  apply (listing_order_is_immaterial id
           (Combiner.data_scandir ["b.json"; "notes.txt"; "all.json"; "a.json"])
           (Combiner.data_scandir ["a.json"; "all.json"; "b.json"; "notes.txt"])).
  change (["b.json"; "notes.txt"; "all.json"; "a.json"]
          ≡ₚ ["a.json"; "all.json"; "b.json"; "notes.txt"]).
  apply (bool_decide_unpack _). by vm_compute.
Defined.

(** [a.json = [1, 2]] and [b.json = {}] combine to three entries. *)
Lemma combined_normalizes_every_value_witness :
  combine_json.main Combiner.toy_json_load (λ _, "") Posix.os
    Combiner.data_args (Combiner.data_world (Posix.File "{}"))
  = ({| Posix.nodes :=
          <[ "/data/all.json"
             := Posix.File
                  (Json.dumps (λ _, "") 2
                     (Json.PyList [Json.PyInt 1; Json.PyInt 2;
                                   Json.PyDict []])) ]>
            (Posix.nodes (Combiner.data_world (Posix.File "{}")));
        Posix.cwd := PurePath.parse "/";
        Posix.stdout := "Combined 2 file(s) into /data/all.json with 3 item(s)."
                        +:+ PyStr.LF |},
     Ok ()).
Proof.
  destruct (combined_normalizes_every_value Combiner.toy_json_load
              (λ _, "") Posix.os Combiner.data_args
              (Combiner.data_world (Posix.File "{}"))
              [Json.PyList [Json.PyInt 1; Json.PyInt 2]; Json.PyDict []])
    as (_ & Hmain & _).
  - reflexivity.
  - change (Combiner.candidates _ _ Combiner.data_args)
      with [PurePath.parse "/data/a.json"; PurePath.parse "/data/b.json"].
    repeat constructor.
    + exists "[1, 2]". split; reflexivity.
    + exists "{}". split; reflexivity.
  - rewrite Hmain. reflexivity.
Defined.

(** The numeral [007] is read as 7, which formats as [7]. *)
Lemma accepted_index_formats_within_limit_witness :
  PyStr.to_N "007" = Some 7 ∧
  (String.length (PyStr.of_nat_N 7) ≤ String.length "007")%nat ∧
  PyStr.exceeds_max_str_digits 4300 (PyStr.of_nat_N 7) = false.
Proof.
  apply (accepted_index_formats_within_limit 4300 "007" 7). reflexivity.
Defined.
